(** * generate_podcast_rss.py: a shallow embedding and its properties

    The program fetches a page, extracts the MP3 links, infers the
    episode metadata from the file names and renders an RSS feed.

    Modelling conventions.
    - A Python [str] is a [string]: the sequence of the bytes of its UTF-8
      encoding.  Comparing two such sequences byte by byte, a proper prefix
      being smaller, is Python's comparison of the [str]s by code point.
      The classes [\d] and [\s] of the regular expressions are taken on the
      ASCII range: a URL with decimal digits or white space outside ASCII is
      outside the model.
    - A Python [int] is a [Z].
    - A raised exception is a value of [exn]; a function that can raise
      returns a [result].
    - The local variable [ep] of [build_rss], assigned in one branch of the
      loop body and read after the branch, is an explicit piece of loop
      state: [None] while it is unbound. *)

From Stdlib Require Import ZArith Lia Bool Ascii String DecimalString OrdersEx.
From Stdlib Require Import Sorting.Sorted Sorting.Permutation.
From stdpp Require Import base gmap strings list sorting.

Local Open Scope Z_scope.

(** ** Exceptions *)

Inductive exn : Type :=
| ValueError
| UnboundLocalError.

Inductive result (A : Type) : Type :=
| Ok (a : A)
| Raise (e : exn).

Arguments Ok {A} a.
Arguments Raise {A} e.

#[global] Instance result_ret : MRet result := fun A a => Ok a.

#[global] Instance result_bind : MBind result := fun A B k r =>
  match r with
  | Ok a => k a
  | Raise e => Raise e
  end.

(** ** Characters and strings *)

Module Str.

Definition code (c : ascii) : Z := Z.of_N (N_of_ascii c).

Definition is_digit (c : ascii) : bool := (48 <=? code c) && (code c <=? 57).

(** [str.isspace] on the ASCII range. *)
Definition is_space (c : ascii) : bool :=
  (code c =? 32) || ((9 <=? code c) && (code c <=? 13))
  || ((28 <=? code c) && (code c <=? 31)).

Definition is_alpha (c : ascii) : bool :=
  ((65 <=? code c) && (code c <=? 90)) || ((97 <=? code c) && (code c <=? 122)).

(** [c.lower()] on the ASCII range. *)
Definition lower (c : ascii) : ascii :=
  if (65 <=? code c) && (code c <=? 90)
  then ascii_of_N (N_of_ascii c + 32) else c.

(** Equality of two characters under [re.IGNORECASE]. *)
Definition eqb_nocase (a b : ascii) : bool := Ascii.eqb (lower a) (lower b).

Fixpoint mem (c : ascii) (s : string) : bool :=
  match s with
  | EmptyString => false
  | String a s' => Ascii.eqb a c || mem c s'
  end.

Fixpoint take (n : nat) (s : string) : string :=
  match n, s with
  | S n', String a s' => String a (take n' s')
  | _, _ => EmptyString
  end.

Fixpoint drop (n : nat) (s : string) : string :=
  match n, s with
  | S n', String _ s' => drop n' s'
  | _, _ => s
  end.

Fixpoint map (f : ascii -> ascii) (s : string) : string :=
  match s with
  | EmptyString => EmptyString
  | String a s' => String (f a) (map f s')
  end.

Fixpoint forallb (p : ascii -> bool) (s : string) : bool :=
  match s with
  | EmptyString => true
  | String a s' => p a && forallb p s'
  end.

(** [s.startswith(p)] *)
Fixpoint startswith (p s : string) : bool :=
  match p, s with
  | EmptyString, _ => true
  | String a p', String b s' => Ascii.eqb a b && startswith p' s'
  | String _ _, EmptyString => false
  end.

(** [s.startswith(p)] under [re.IGNORECASE]. *)
Fixpoint startswith_nocase (p s : string) : bool :=
  match p, s with
  | EmptyString, _ => true
  | String a p', String b s' => eqb_nocase a b && startswith_nocase p' s'
  | String _ _, EmptyString => false
  end.

(** [s.rsplit(sep, 1)[-1]]: what follows the last [sep], all of [s] when
    there is none. *)
Fixpoint rsplit_last (sep : ascii) (s : string) : string :=
  match s with
  | EmptyString => EmptyString
  | String a s' =>
      if mem sep s' then rsplit_last sep s'
      else if Ascii.eqb a sep then s' else s
  end.

(** [s.rsplit(sep, 1)[0]]: what precedes the last [sep], all of [s] when
    there is none. *)
Fixpoint rsplit_head (sep : ascii) (s : string) : string :=
  match s with
  | EmptyString => EmptyString
  | String a s' =>
      if mem sep s' then String a (rsplit_head sep s')
      else if Ascii.eqb a sep then EmptyString else s
  end.

(** [s.split(sep, 1)[0]]: what precedes the first [sep]. *)
Fixpoint split_head (sep : ascii) (s : string) : string :=
  match s with
  | EmptyString => EmptyString
  | String a s' => if Ascii.eqb a sep then EmptyString else String a (split_head sep s')
  end.

(** [s.replace(a, b)] for single characters. *)
Definition replace (a b : ascii) (s : string) : string :=
  map (fun c => if Ascii.eqb c a then b else c) s.

(** [s.replace(a, '')] for a single character. *)
Fixpoint remove (a : ascii) (s : string) : string :=
  match s with
  | EmptyString => EmptyString
  | String c s' => if Ascii.eqb c a then remove a s' else String c (remove a s')
  end.

(** [s.lstrip()] with the characters for which [p] holds. *)
Fixpoint lstrip (p : ascii -> bool) (s : string) : string :=
  match s with
  | EmptyString => EmptyString
  | String a s' => if p a then lstrip p s' else s
  end.

(** [s.rstrip()] with the characters for which [p] holds. *)
Fixpoint rstrip (p : ascii -> bool) (s : string) : string :=
  match s with
  | EmptyString => EmptyString
  | String a s' =>
      if p a && forallb p s' then EmptyString else String a (rstrip p s')
  end.

Definition strip (p : ascii -> bool) (s : string) : string :=
  rstrip p (lstrip p s).

(** The longest prefix of characters for which [p] holds. *)
Fixpoint span (p : ascii -> bool) (s : string) : string :=
  match s with
  | EmptyString => EmptyString
  | String a s' => if p a then String a (span p s') else EmptyString
  end.

Fixpoint concat (l : list string) : string :=
  match l with
  | [] => EmptyString
  | s :: l' => s +:+ concat l'
  end.

(** [int(s)] for a run of ASCII digits, most significant first.  The bound
    of the interpreter on the number of digits ([sys.int_max_str_digits]) is a
    setting of the run and is not modelled. *)
Definition int_of_digits (s : string) : Z :=
  (fix go (acc : Z) (s : string) : Z :=
     match s with
     | EmptyString => acc
     | String a s' => go (10 * acc + (code a - 48)) s'
     end) 0 s.

(** [str(n)] for an [int]. *)
Definition of_Z (n : Z) : string := NilZero.string_of_int (Z.to_int n).

(** ["%0<w>d" % n] for [0 <= n]. *)
Definition pad0 (w : nat) (n : Z) : string :=
  let s := of_Z n in
  concat (repeat "0" (w - String.length s)%nat) +:+ s.

End Str.

(** ** [datetime.date] and UTC [datetime.datetime] *)

Record date : Type := mkdate { year : Z; month : Z; day : Z }.

(** A [datetime] with [tzinfo=timezone.utc]. *)
Record datetime : Type :=
  mkdatetime { dt_date : date; hour : Z; minute : Z; second : Z }.

Definition is_leap (y : Z) : bool :=
  (y mod 4 =? 0) && (negb (y mod 100 =? 0) || (y mod 400 =? 0)).

Definition days_in_month (y m : Z) : Z :=
  if m =? 2 then (if is_leap y then 29 else 28)
  else if (m =? 4) || (m =? 6) || (m =? 9) || (m =? 11) then 30 else 31.

Definition valid_date (y m d : Z) : bool :=
  (1 <=? y) && (y <=? 9999) && (1 <=? m) && (m <=? 12)
  && (1 <=? d) && (d <=? days_in_month y m).

(** The shape [\d{4}-\d{2}-\d{2}] at the start of [s]. *)
Definition match_date_at (s : string) : bool :=
  match s with
  | String y1 (String y2 (String y3 (String y4 (String h1 (String m1 (String m2
      (String h2 (String d1 (String d2 _))))))))) =>
      Str.is_digit y1 && Str.is_digit y2 && Str.is_digit y3 && Str.is_digit y4
      && Ascii.eqb h1 "-" && Str.is_digit m1 && Str.is_digit m2
      && Ascii.eqb h2 "-" && Str.is_digit d1 && Str.is_digit d2
  | _ => false
  end.

(** [dt.date.fromisoformat(s)]; the program calls it on the text captured by
    [\d{4}-\d{2}-\d{2}] only.  [ValueError] when the string has another shape
    or names no day of the calendar. *)
Definition fromisoformat (s : string) : result date :=
  if match_date_at s && (String.length s =? 10)%nat then
    let y := Str.int_of_digits (Str.take 4 s) in
    let m := Str.int_of_digits (Str.take 2 (Str.drop 5 s)) in
    let d := Str.int_of_digits (Str.take 2 (Str.drop 8 s)) in
    if valid_date y m d then Ok (mkdate y m d) else Raise ValueError
  else Raise ValueError.

(** [dt.datetime(d.year, d.month, d.day, 0, 0, 0, tzinfo=dt.timezone.utc)] *)
Definition midnight (d : date) : datetime := mkdatetime d 0 0 0.

(** [dt.datetime(1970, 1, 1, tzinfo=dt.timezone.utc)] *)
Definition epoch : datetime := midnight (mkdate 1970 1 1).

(** ** [urllib.parse.urlparse(url).path]

    The path component as [urlsplit] and [urlparse] of CPython 3.11 compute
    it.  The validation of a bracketed (IPv6) authority, which can raise
    [ValueError], is not modelled: the model is of URLs whose authority has no
    bracket. *)

Module Url.

(** [_WHATWG_C0_CONTROL_OR_SPACE] *)
Definition c0_or_space (c : ascii) : bool := Str.code c <=? 32.

(** [scheme_chars] *)
Definition scheme_char (c : ascii) : bool :=
  Str.is_alpha c || Str.is_digit c
  || Ascii.eqb c "+" || Ascii.eqb c "-" || Ascii.eqb c ".".

Definition uses_params : list string :=
  [EmptyString; "ftp"; "hdl"; "prospero"; "http"; "imap"; "https"; "shttp"; "rtsp";
   "rtspu"; "sip"; "sips"; "mms"; "sftp"; "tel"].

(** The scheme, in lower case, and what follows its colon. *)
Definition split_scheme (url : string) : string * string :=
  if Str.mem ":" url then
    let pre := Str.split_head ":" url in
    match pre with
    | String a _ =>
        if Str.is_alpha a && Str.forallb scheme_char pre
        then (Str.map Str.lower pre, Str.drop (S (String.length pre)) url)
        else (EmptyString, url)
    | EmptyString => (EmptyString, url)
    end
  else (EmptyString, url).

(** [_splitnetloc(url, 2)[1]] once the two slashes are gone: from the first
    of [/], [?] and [#] on. *)
Fixpoint after_netloc (s : string) : string :=
  match s with
  | EmptyString => EmptyString
  | String a s' =>
      if Ascii.eqb a "/" || Ascii.eqb a "?" || Ascii.eqb a "#" then s
      else after_netloc s'
  end.

(** [_splitparams(url)[0]] *)
Definition splitparams (url : string) : string :=
  if Str.mem "/" url then
    Str.rsplit_head "/" url +:+ "/" +:+ Str.split_head ";" (Str.rsplit_last "/" url)
  else Str.split_head ";" url.

Definition path (url : string) : string :=
  let url := Str.lstrip c0_or_space url in
  let url := Str.remove "010" (Str.remove "013" (Str.remove "009" url)) in
  let '(scheme, url) := split_scheme url in
  let url := if Str.startswith "//" url then after_netloc (Str.drop 2 url) else url in
  let url := Str.split_head "#" url in
  let url := Str.split_head "?" url in
  if bool_decide (scheme ∈ uses_params) && Str.mem ";" url
  then splitparams url else url.

End Url.

(** [urllib.parse.urlparse(mp3_url).path.rsplit("/", 1)[-1]] *)
Definition filename_of (mp3_url : string) : string :=
  Str.rsplit_last "/" (Url.path mp3_url).

(** [filename.rsplit(".", 1)[0]] *)
Definition name_of (mp3_url : string) : string :=
  Str.rsplit_head "." (filename_of mp3_url).

(** ** The regular expressions *)

(** [DATE_IN_NAME_RE.search(s)]: the text of the leftmost occurrence of
    [\d{4}-\d{2}-\d{2}] in [s]. *)
Fixpoint DATE_IN_NAME_RE_search (s : string) : option string :=
  if match_date_at s then Some (Str.take 10 s)
  else match s with
       | EmptyString => None
       | String _ s' => DATE_IN_NAME_RE_search s'
       end.

(** [Ep(?P<ep>\d+)] under [re.IGNORECASE] at the start of [s]: the longest
    run of digits after the two letters, which has to be non-empty. *)
Definition match_ep_at (s : string) : option string :=
  if Str.startswith_nocase "Ep" s then
    match Str.span Str.is_digit (Str.drop 2 s) with
    | EmptyString => None
    | ds => Some ds
    end
  else None.

(** [.*?Ep(?P<ep>\d+)] at the start of [s]: the lazy [.*?] grows one
    character at a time, and never over a line feed. *)
Fixpoint match_lazy_ep (s : string) : option string :=
  match match_ep_at s with
  | Some ds => Some ds
  | None =>
      match s with
      | EmptyString => None
      | String a s' => if Ascii.eqb a "010" then None else match_lazy_ep s'
      end
  end.

(** [EP_RE] at the start of [s]: the groups [date] and [ep]. *)
Definition match_EP_RE_at (s : string) : option (string * string) :=
  if match_date_at s then
    match match_lazy_ep (Str.drop 10 s) with
    | Some ds => Some (Str.take 10 s, ds)
    | None => None
    end
  else None.

(** [EP_RE.search(s)]: the groups of the match at the leftmost position
    that has one. *)
Fixpoint EP_RE_search (s : string) : option (string * string) :=
  match match_EP_RE_at s with
  | Some g => Some g
  | None =>
      match s with
      | EmptyString => None
      | String _ s' => EP_RE_search s'
      end
  end.

(** ** Metadata inference *)

Definition parse_episode_info (mp3_url : string) : result (option (date * Z)) :=
  let name := name_of mp3_url in
  match EP_RE_search name with
  | None => Ok None
  | Some (mdate, mep) =>
      d ← fromisoformat mdate;
      let ep := Str.int_of_digits mep in
      Ok (Some (d, ep))
  end.

(** [try: ... except ValueError: return None] *)
Definition except_ValueError {A : Type} (r : result (option A)) : result (option A) :=
  match r with
  | Raise ValueError => Ok None
  | _ => r
  end.

Definition guess_pubdate_from_url (mp3_url : string) : result (option datetime) :=
  let filename := filename_of mp3_url in
  match DATE_IN_NAME_RE_search filename with
  | None => Ok None
  | Some m =>
      except_ValueError
        (d ← fromisoformat m;
         Ok (Some (midnight d)))
  end.

(** [re.sub(r"\s+", " ", s)]: every maximal run of white space becomes one
    space. *)
Fixpoint collapse_spaces (s : string) : string :=
  match s with
  | EmptyString => EmptyString
  | String a s' =>
      if Str.is_space a then
        match s' with
        | String b _ => if Str.is_space b then collapse_spaces s'
                        else String " " (collapse_spaces s')
        | EmptyString => String " " EmptyString
        end
      else String a (collapse_spaces s')
  end.

Definition human_title_from_url (mp3_url : string) : string :=
  let name := name_of mp3_url in
  let name := Str.replace "_" " " name in
  Str.strip Str.is_space (collapse_spaces name).

(** ** Formatting dates *)

Definition month_abbr : list string :=
  ["Jan"; "Feb"; "Mar"; "Apr"; "May"; "Jun";
   "Jul"; "Aug"; "Sep"; "Oct"; "Nov"; "Dec"].

Definition month_name : list string :=
  ["January"; "February"; "March"; "April"; "May"; "June"; "July";
   "August"; "September"; "October"; "November"; "December"].

Definition day_abbr : list string :=
  ["Mon"; "Tue"; "Wed"; "Thu"; "Fri"; "Sat"; "Sun"].

Definition nth_name (names : list string) (i : Z) : string :=
  default EmptyString (names !! Z.to_nat i).

(** [d.strftime('%b %d, %Y')] in the C locale.  The year is written on four
    digits; before the year 1000 some C libraries print it without the leading
    zeros. *)
Definition strftime_b_d_Y (d : date) : string :=
  nth_name month_abbr (month d - 1) +:+ " " +:+ Str.pad0 2 (day d)
  +:+ ", " +:+ Str.pad0 4 (year d).

(** [d.strftime('%B %d, %Y')] in the C locale, the year on four digits. *)
Definition strftime_B_d_Y (d : date) : string :=
  nth_name month_name (month d - 1) +:+ " " +:+ Str.pad0 2 (day d)
  +:+ ", " +:+ Str.pad0 4 (year d).

Definition days_before_year (y : Z) : Z :=
  (y - 1) * 365 + (y - 1) / 4 - (y - 1) / 100 + (y - 1) / 400.

Definition days_before_month (y m : Z) : Z :=
  fold_right Z.add 0 (List.map (days_in_month y) (List.map Z.of_nat (seq 1 (Z.to_nat (m - 1))))).

(** [d.toordinal()] *)
Definition toordinal (d : date) : Z :=
  days_before_year (year d) + days_before_month (year d) (month d) + day d.

(** [d.weekday()], Monday being 0. *)
Definition weekday (d : date) : Z := (toordinal d + 6) mod 7.

(** [email.utils.format_datetime(t)] for a UTC [datetime]. *)
Definition format_datetime (t : datetime) : string :=
  let d := dt_date t in
  nth_name day_abbr (weekday d) +:+ ", " +:+ Str.pad0 2 (day d) +:+ " "
  +:+ nth_name month_abbr (month d - 1) +:+ " " +:+ Str.pad0 4 (year d) +:+ " "
  +:+ Str.pad0 2 (hour t) +:+ ":" +:+ Str.pad0 2 (minute t) +:+ ":"
  +:+ Str.pad0 2 (second t) +:+ " +0000".

(** ** [xml.etree.ElementTree] *)

#[warnings="-register-all"]
Inductive Element : Type :=
| mkElement (tag : string) (attrib : list (string * string))
            (text : option string) (children : list Element).

Definition tag (e : Element) : string := let 'mkElement t _ _ _ := e in t.
Definition attrib (e : Element) : list (string * string) :=
  let 'mkElement _ a _ _ := e in a.
Definition text (e : Element) : option string := let 'mkElement _ _ t _ := e in t.
Definition children (e : Element) : list Element :=
  let 'mkElement _ _ _ c := e in c.

(** An element with a text and nothing else: [SubElement(p, tag).text = t]. *)
Definition text_element (tg t : string) : Element := mkElement tg [] (Some t) [].

(** [e.get(key)] *)
Fixpoint get (key : string) (a : list (string * string)) : option string :=
  match a with
  | [] => None
  | (k, v) :: a' => if String.eqb k key then Some v else get key a'
  end.

(** [e.findall(tg)]: the children of [e] with that tag. *)
Definition findall (tg : string) (e : Element) : list Element :=
  List.filter (fun c => String.eqb (tag c) tg) (children e).

(** [_escape_cdata] *)
Fixpoint escape_cdata (s : string) : string :=
  match s with
  | EmptyString => EmptyString
  | String a s' =>
      (if Ascii.eqb a "&" then "&amp;"
       else if Ascii.eqb a "<" then "&lt;"
       else if Ascii.eqb a ">" then "&gt;"
       else String a EmptyString) +:+ escape_cdata s'
  end.

(** [_escape_attrib] *)
Fixpoint escape_attrib (s : string) : string :=
  match s with
  | EmptyString => EmptyString
  | String a s' =>
      (if Ascii.eqb a "&" then "&amp;"
       else if Ascii.eqb a "<" then "&lt;"
       else if Ascii.eqb a ">" then "&gt;"
       else if Ascii.eqb a "034" then "&quot;"
       else if Ascii.eqb a "013" then "&#13;"
       else if Ascii.eqb a "010" then "&#10;"
       else if Ascii.eqb a "009" then "&#09;"
       else String a EmptyString) +:+ escape_attrib s'
  end.

(** [_serialize_xml] with [short_empty_elements=True]; the tags and attribute
    names of the feed are written as they are. *)
Fixpoint serialize_xml (e : Element) : string :=
  let 'mkElement tg atts txt kids := e in
  let open :=
    "<" +:+ tg +:+
    Str.concat (List.map (fun kv => " " +:+ fst kv +:+ "=" +:+ String "034" EmptyString
                                   +:+ escape_attrib (snd kv) +:+ String "034" EmptyString) atts) in
  let txt := default EmptyString txt in
  match txt, kids with
  | EmptyString, [] => open +:+ " />"
  | _, _ =>
      open +:+ ">" +:+ escape_cdata txt
      +:+ Str.concat (List.map serialize_xml kids) +:+ "</" +:+ tg +:+ ">"
  end.

(** [tostring(e, encoding="utf-8", xml_declaration=True).decode("utf-8")] *)
Definition tostring (e : Element) : string :=
  "<?xml version='1.0' encoding='utf-8'?>" +:+ String "010" EmptyString
  +:+ serialize_xml e.

(** ** Ordering the items *)

Definition date_compare (a b : date) : comparison :=
  match year a ?= year b with
  | Eq => match month a ?= month b with
          | Eq => day a ?= day b
          | c => c
          end
  | c => c
  end.

(** The order of two UTC [datetime]s. *)
Definition datetime_compare (a b : datetime) : comparison :=
  match date_compare (dt_date a) (dt_date b) with
  | Eq => match hour a ?= hour b with
          | Eq => match minute a ?= minute b with
                  | Eq => second a ?= second b
                  | c => c
                  end
          | c => c
          end
  | c => c
  end.

(** The order of the tuples [(t[0], t[1])]: by the first component, by the
    second one when the first ones are equal. *)
Definition key_compare (a b : datetime * string) : comparison :=
  match datetime_compare a.1 b.1 with
  | Eq => String.compare a.2 b.2
  | c => c
  end.

(** [key a <= key b] *)
Definition key_leb (a b : datetime * string) : bool :=
  match key_compare a b with
  | Gt => false
  | _ => true
  end.

(** [x] goes before the first item whose key is not greater than its own:
    items with equal keys keep the order they came in. *)
Fixpoint insert_desc (x : datetime * string) (l : list (datetime * string))
  : list (datetime * string) :=
  match l with
  | [] => [x]
  | y :: l' => if key_leb y x then x :: l else y :: insert_desc x l'
  end.

(** [items.sort(key=lambda t: (t[0], t[1]), reverse=True)]: a stable sort by
    descending key. *)
Fixpoint sort_desc (l : list (datetime * string)) : list (datetime * string) :=
  match l with
  | [] => []
  | x :: l' => insert_desc x (sort_desc l')
  end.

(** [l[:n]], a negative [n] counting from the end. *)
Definition slice_to {A : Type} (n : Z) (l : list A) : list A :=
  if n <? 0 then take (Z.to_nat (Z.of_nat (length l) + n)) l
  else take (Z.to_nat n) l.

(** ** The feed renderer *)

Section Renderer.

(** [dt.datetime.now(dt.timezone.utc)] *)
Variable now : datetime.

(** The first loop of [build_rss]: each URL with its guessed date, or with
    the date of the epoch. *)
Fixpoint dated_items (mp3_urls : list string) : result (list (datetime * string)) :=
  match mp3_urls with
  | [] => Ok []
  | url :: rest =>
      pub ← guess_pubdate_from_url url;
      items ← dated_items rest;
      Ok ((default epoch pub, url) :: items)
  end.

(** The items of the feed: sorted, then cut to [limit] when there is one. *)
Definition select_items (mp3_urls : list string) (limit : option Z)
  : result (list (datetime * string)) :=
  items ← dated_items mp3_urls;
  let items := sort_desc items in
  Ok (match limit with
      | Some n => slice_to n items
      | None => items
      end).

(** Reading the local variable [ep]. *)
Definition read_local (ep : option Z) : result Z :=
  match ep with
  | Some n => Ok n
  | None => Raise UnboundLocalError
  end.

(** The body of the second loop: the [<item>] of one URL and the binding of
    [ep] it leaves behind. *)
Definition render_item (ep : option Z) (it : datetime * string)
  : result (Element * option Z) :=
  let '(pub_dt, url) := it in
  info ← parse_episode_info url;
  let '(title, description, ep) :=
    match info with
    | Some (date, n) =>
        ("Ep. " +:+ Str.of_Z n +:+ " — " +:+ strftime_b_d_Y date,
         "Paradise Valley Music Hour." +:+ String "010" EmptyString
         +:+ "Originally aired " +:+ strftime_B_d_Y date +:+ " on Voice of Vashon.",
         Some n)
    | None => (human_title_from_url url, "Audio: " +:+ url, ep)
    end in
  let fields :=
    [text_element "title" title; text_element "link" url;
     text_element "guid" url; text_element "description" description] in
  let pub :=
    if bool_decide (year (dt_date pub_dt) ≠ 1970)
    then [text_element "pubDate" (format_datetime pub_dt)] else [] in
  let enc := mkElement "enclosure" [("url", url); ("type", "audio/mpeg")] None [] in
  n ← read_local ep;
  Ok (mkElement "item" [] None
        (fields ++ pub ++
         [enc; text_element "itunes:episode" (Str.of_Z n);
          text_element "itunes:episodeType" "full"]),
      ep).

(** The second loop. *)
Fixpoint render_items (ep : option Z) (items : list (datetime * string))
  : result (list Element) :=
  match items with
  | [] => Ok []
  | it :: rest =>
      '(item, ep) ← render_item ep it;
      more ← render_items ep rest;
      Ok (item :: more)
  end.

(** The channel-level block. *)
Definition channel_head (feed_title feed_desc site_url : string)
    (image_url : option string) : list Element :=
  [text_element "title" feed_title; text_element "link" site_url;
   text_element "description" feed_desc; text_element "language" "en-us";
   text_element "generator" "generate_podcast_rss.py";
   text_element "lastBuildDate" (format_datetime now);
   text_element "itunes:explicit" "no"; text_element "itunes:type" "episodic"]
  ++ match image_url with
     | Some (String a u) => [mkElement "itunes:image" [("href", String a u)] None []]
     | _ => []
     end.

(** The tree that [build_rss] hands to [tostring]. *)
Definition build_rss_tree (mp3_urls : list string)
    (feed_title feed_desc site_url : string) (image_url : option string)
    (limit : option Z) : result Element :=
  items ← select_items mp3_urls limit;
  rendered ← render_items None items;
  Ok (mkElement "rss"
        [("version", "2.0");
         ("xmlns:itunes", "http://www.itunes.com/dtds/podcast-1.0.dtd")] None
        [mkElement "channel" [] None
           (channel_head feed_title feed_desc site_url image_url ++ rendered)]).

Definition build_rss (mp3_urls : list string)
    (feed_title feed_desc site_url : string) (image_url : option string)
    (limit : option Z) : result string :=
  rss ← build_rss_tree mp3_urls feed_title feed_desc site_url image_url limit;
  Ok (tostring rss).

(** The [<item>]s of a rendered feed, in document order. *)
Definition feed_items (rss : Element) : list Element :=
  concat (List.map (findall "item") (findall "channel" rss)).

End Renderer.

(** ** The extractor *)

(** [MP3_RE] at the start of [s]: the captured text and the length of the
    whole match.  The greedy class of the characters that are no quote runs to
    the next quote of either kind; the match needs that quote, and needs the
    run to end in [.mp3] after one character at least. *)
Definition match_MP3_RE_at (s : string) : option (string * nat) :=
  let is_quote (c : ascii) := Ascii.eqb c "034" || Ascii.eqb c "'" in
  if Str.startswith_nocase "href=" s then
    match Str.drop 5 s with
    | String q rest =>
        if is_quote q then
          let run := Str.span (fun c => negb (is_quote c)) rest in
          let n := String.length run in
          match Str.drop n rest with
          | String _ _ =>
              if (5 <=? n)%nat && Str.startswith_nocase ".mp3" (Str.drop (n - 4) run)
              then Some (run, (n + 7)%nat) else None
          | EmptyString => None
          end
        else None
    | EmptyString => None
    end
  else None.

(** [[m.group(1) for m in MP3_RE.finditer(s)]]: the matches from left to
    right, the search going on where the last match ended; [skip] characters
    of the last match are still to be passed. *)
Fixpoint MP3_RE_finditer_from (skip : nat) (s : string) : list string :=
  match s with
  | EmptyString => []
  | String _ s' =>
      match skip with
      | S k => MP3_RE_finditer_from k s'
      | O =>
          match match_MP3_RE_at s with
          | Some (g, n) => g :: MP3_RE_finditer_from (n - 1) s'
          | None => MP3_RE_finditer_from 0 s'
          end
      end
  end.

Definition MP3_RE_finditer (s : string) : list string := MP3_RE_finditer_from 0 s.

Section Extractor.

(** [html.unescape] and [urllib.parse.urljoin], taken from the library. *)
Variable unescape : string -> string.
Variable urljoin : string -> string -> string.

Definition absolutize (url base : string) : string := urljoin base url.

(** The body of the loop of [extract_mp3_urls], on the state [(urls, seen)]. *)
Definition extract_step (base_url : string) (st : list string * gset string)
    (group1 : string) : list string * gset string :=
  let '(urls, seen) := st in
  let raw := unescape group1 in
  let abs_url := absolutize raw base_url in
  if negb (Str.startswith "http://" abs_url || Str.startswith "https://" abs_url)
  then st
  else if bool_decide (abs_url ∉ seen)
       then (urls ++ [abs_url], {[abs_url]} ∪ seen)
       else st.

Definition extract_mp3_urls (page_html base_url : string) : list string :=
  (foldl (extract_step base_url) ([], ∅) (MP3_RE_finditer page_html)).1.

End Extractor.

(** ** The command line *)

(** The parsed arguments. *)
Record args : Type := mkargs {
  page : string;
  site : string;
  title : string;
  desc : string;
  image : option string;
  limit : option Z
}.

(** What a run leaves behind: the exit status and the two streams. *)
Record outcome : Type := mkoutcome {
  exit_code : Z;
  stdout : string;
  stderr : string
}.

Section Main.

Variable now : datetime.
Variable unescape : string -> string.
Variable urljoin : string -> string -> string.

(** [main()] once [fetch(args.page)] has returned [page_html]: the value
    returned or the exception raised, and what was written on the streams
    until then. *)
Definition main (a : args) (page_html : string) : result Z * string * string :=
  let mp3_urls := extract_mp3_urls unescape urljoin page_html (page a) in
  match mp3_urls with
  | [] =>
      (Ok 2, EmptyString,
       "ERROR: No .mp3 links found on " +:+ page a +:+ String "010" EmptyString)
  | _ =>
      match build_rss now mp3_urls (title a) (desc a) (site a) (image a) (limit a) with
      | Ok rss_xml => (Ok 0, rss_xml, EmptyString)
      | Raise e => (Raise e, EmptyString, EmptyString)
      end
  end.

(** The traceback that the interpreter prints for an exception nobody
    caught; only its last line is modelled. *)
Definition traceback (e : exn) : string :=
  match e with
  | ValueError => "ValueError"
  | UnboundLocalError => "UnboundLocalError"
  end +:+ String "010" EmptyString.

(** [raise SystemExit(main())]: the status is the value returned, or 1 after
    an exception that nobody caught. *)
Definition run (a : args) (page_html : string) : outcome :=
  match main a page_html with
  | (Ok status, out, err) => mkoutcome status out err
  | (Raise e, out, err) => mkoutcome 1 out (err +:+ traceback e)
  end.

End Main.

(** ** Notions used by the statements *)

(** A three-way comparison that is a total order. *)
Class GoodCompare {A : Type} (cmp : A -> A -> comparison) : Prop := {
  cmp_eq : forall a b, cmp a b = Eq -> a = b;
  cmp_refl : forall a, cmp a a = Eq;
  cmp_opp : forall a b, cmp b a = CompOpp (cmp a b);
  cmp_trans : forall a b c, cmp a b = Lt -> cmp b c = Lt -> cmp a c = Lt
}.

Arguments cmp_eq {A} cmp {_} a b.
Arguments cmp_refl {A} cmp {_} a.
Arguments cmp_opp {A} cmp {_} a b.
Arguments cmp_trans {A} cmp {_} a b c.

(** The lexicographic product of two comparisons. *)
Definition lex {A B : Type} (ca : A -> A -> comparison) (cb : B -> B -> comparison)
    (x y : A * B) : comparison :=
  match ca x.1 y.1 with
  | Eq => cb x.2 y.2
  | Lt => Lt
  | Gt => Gt
  end.

(** [b] comes no later than [a] in a list sorted by descending key. *)
Definition key_ge (a b : datetime * string) : Prop := key_leb b a = true.

(** The key under which the renderer sorts a URL. *)
Definition sort_key (mp3_url : string) : datetime * string :=
  (match guess_pubdate_from_url mp3_url with
   | Ok (Some t) => t
   | _ => epoch
   end, mp3_url).



(** The resolved URLs that pass the scheme test, one for each match of
    [MP3_RE] in the page, in the order of the matches. *)
Definition candidates (unescape : string -> string) (urljoin : string -> string -> string)
    (page_html base_url : string) : list string :=
  List.filter (fun u => Str.startswith "http://" u || Str.startswith "https://" u)
    (List.map (fun g => urljoin base_url (unescape g)) (MP3_RE_finditer page_html)).

(** The loop of the extractor on the candidates, the set [seen] read off the
    list [urls]. *)
Fixpoint dedup_acc (urls : list string) (l : list string) : list string :=
  match l with
  | [] => urls
  | c :: l' =>
      if bool_decide (c ∈ urls) then dedup_acc urls l' else dedup_acc (urls ++ [c]) l'
  end.

(** A quote of either kind. *)
Definition is_quote (c : ascii) : bool := Ascii.eqb c "034" || Ascii.eqb c "'".

(** [g] is a text of five characters at least, without quote, that ends in
    [.mp3] in whatever case. *)
Definition mp3_link_text (g : string) : Prop :=
  (5 <= String.length g)%nat
  /\ Str.startswith_nocase ".mp3" (Str.drop (String.length g - 4) g) = true
  /\ Str.forallb (fun c => negb (is_quote c)) g = true.

(** [u.startswith(("http://", "https://"))] *)
Definition is_http (u : string) : bool :=
  Str.startswith "http://" u || Str.startswith "https://" u.

(** Every white space of [s] is one space, with a character that is no
    white space after it when [strict], or with such a character or the end
    of [s] after it. *)
Fixpoint spaced (strict : bool) (s : string) : bool :=
  match s with
  | EmptyString => true
  | String a s' =>
      (if Str.is_space a
       then Ascii.eqb a " "
            && match s' with
               | String b _ => negb (Str.is_space b)
               | EmptyString => negb strict
               end
       else true)
      && spaced strict s'
  end.

(** [s] does not start with a white space. *)
Definition no_leading_space (s : string) : bool :=
  match s with
  | String a _ => negb (Str.is_space a)
  | EmptyString => true
  end.

(** [s] holds no line feed. *)
Definition no_line_feed (s : string) : Prop := Str.mem "010" s = false.

(** The text of the only child of [e] with tag [tg]. *)
Definition child_text (tg : string) (e : Element) : option string :=
  match findall tg e with
  | [c] => text c
  | _ => None
  end.

Definition enclosure_of (url : string) : Element :=
  mkElement "enclosure" [("url", url); ("type", "audio/mpeg")] None [].

Definition pubDate_of (pub_dt : datetime) : list Element :=
  if bool_decide (year (dt_date pub_dt) ≠ 1970)
  then [text_element "pubDate" (format_datetime pub_dt)] else [].

Definition item_of (ttl dsc : string) (pub_dt : datetime) (url : string) (n : Z)
  : Element :=
  mkElement "item" [] None
    ([text_element "title" ttl; text_element "link" url;
      text_element "guid" url; text_element "description" dsc]
     ++ pubDate_of pub_dt ++
     [enclosure_of url; text_element "itunes:episode" (Str.of_Z n);
      text_element "itunes:episodeType" "full"]).

(** The URLs of the examples. *)
Definition base_url : string := "https://voiceofvashon.org/audio/Paradise/".
Definition url_ep12 : string := base_url +:+ "2024-01-05_Ep12.mp3".
Definition url_ep13 : string := base_url +:+ "2024-02-01_Ep13.mp3".
Definition url_random : string := base_url +:+ "random_track.mp3".
Definition url_bad_date : string := base_url +:+ "2024-13-45_Ep1.mp3".
Definition url_1970 : string := base_url +:+ "1970-06-15_Ep3.mp3".
Definition url_1969 : string := base_url +:+ "1969-07-20_Ep1.mp3".
Definition now0 : datetime := mkdatetime (mkdate 2026 11 4) 12 30 5.

(** The feed of a structured episode and a file whose name misses the
    structured pattern, and its two items. *)
Definition rss_ep12_random : Element :=
  match build_rss_tree now0 [url_random; url_ep12] "T" "D" "S" None None with
  | Ok rss => rss
  | Raise _ => mkElement EmptyString [] None []
  end.

Definition item_first : Element :=
  default (mkElement EmptyString [] None []) (feed_items rss_ep12_random !! 0%nat).

Definition item_second : Element :=
  default (mkElement EmptyString [] None []) (feed_items rss_ep12_random !! 1%nat).

(** A page with one link, to a file whose name misses the structured
    pattern. *)
Definition page_random : string := "<a href='" +:+ url_random +:+ "'>x</a>".

(** The feed of one structured episode, and its only item. *)
Definition rss_ep12 : Element :=
  match build_rss_tree now0 [url_ep12] "T" "D" "S" None None with
  | Ok rss => rss
  | Raise _ => mkElement EmptyString [] None []
  end.

Definition item_ep12 : Element :=
  default (mkElement EmptyString [] None []) (feed_items rss_ep12 !! 0%nat).

(** ** Orders *)

Section Orders.

Context {A : Type} (cmp : A -> A -> comparison) `{!GoodCompare cmp}.

Lemma cmp_gt_lt a b : cmp a b = Gt <-> cmp b a = Lt.
Proof. rewrite (cmp_opp cmp a b). destruct (cmp a b); simpl; split; congruence. Qed.

Lemma cmp_eq_iff a b : cmp a b = Eq <-> a = b.
Proof. split; [apply (cmp_eq cmp) | intros ->; apply (cmp_refl cmp)]. Qed.

Lemma cmp_le_trans a b c : cmp a b <> Gt -> cmp b c <> Gt -> cmp a c <> Gt.
Proof.
  intros Hab Hbc Hac. apply cmp_gt_lt in Hac.
  destruct (cmp a b) eqn:E1; [apply (cmp_eq cmp) in E1; subst | | done].
  - apply Hbc, cmp_gt_lt, Hac.
  - destruct (cmp b c) eqn:E2; [apply (cmp_eq cmp) in E2; subst | | done].
    + rewrite (cmp_opp cmp a c), E1 in Hac. discriminate.
    + pose proof (cmp_trans cmp _ _ _ E2 Hac) as H.
      rewrite (cmp_opp cmp a b), E1 in H. discriminate.
Qed.

Lemma cmp_le_antisym a b : cmp a b <> Gt -> cmp b a <> Gt -> a = b.
Proof.
  intros Hab Hba. rewrite (cmp_opp cmp a b) in Hba.
  destruct (cmp a b) eqn:E; simpl in *; try done. by apply (cmp_eq cmp).
Qed.

Lemma cmp_le_total a b : cmp a b <> Gt \/ cmp b a <> Gt.
Proof. rewrite (cmp_opp cmp a b). destruct (cmp a b); simpl; auto. Qed.

End Orders.

#[global] Instance Z_compare_good : GoodCompare Z.compare.
Proof.
  split.
  - apply Z.compare_eq.
  - apply Z.compare_refl.
  - intros a b. apply Z.compare_antisym.
  - intros a b c. rewrite !Z.compare_lt_iff. lia.
Qed.

#[global] Instance ascii_compare_good : GoodCompare Ascii.compare.
Proof.
  split.
  - apply Ascii.compare_eq_iff.
  - intros a. apply N.compare_refl.
  - intros a b. apply Ascii.compare_antisym.
  - intros a b c. unfold Ascii.compare. rewrite !N.compare_lt_iff. lia.
Qed.

#[global] Instance string_compare_good : GoodCompare String.compare.
Proof.
  split.
  - apply String.compare_eq_iff.
  - induction a as [|c a IH]; simpl; [done|]. by rewrite (cmp_refl Ascii.compare).
  - intros a b. apply String.compare_antisym.
  - induction a as [|x a IH]; intros [|y b] [|z c]; simpl; try done.
    destruct (Ascii.compare x y) eqn:Exy; try done;
      destruct (Ascii.compare y z) eqn:Eyz; try done.
    + apply (cmp_eq Ascii.compare) in Exy, Eyz; subst. rewrite (cmp_refl Ascii.compare). apply IH.
    + apply (cmp_eq Ascii.compare) in Exy; subst. by rewrite Eyz.
    + apply (cmp_eq Ascii.compare) in Eyz; subst. by rewrite Exy.
    + by rewrite (cmp_trans Ascii.compare _ _ _ Exy Eyz).
Qed.

#[global] Instance lex_good {A B : Type} (ca : A -> A -> comparison)
  (cb : B -> B -> comparison) `{!GoodCompare ca, !GoodCompare cb} :
  GoodCompare (lex ca cb).
Proof.
  split; unfold lex.
  - intros [a1 a2] [b1 b2]; simpl. destruct (ca a1 b1) eqn:E; try done.
    intros H. apply (cmp_eq ca) in E. apply (cmp_eq cb) in H. by subst.
  - intros [a1 a2]; simpl. by rewrite (cmp_refl ca), (cmp_refl cb).
  - intros [a1 a2] [b1 b2]; simpl. rewrite (cmp_opp ca a1 b1).
    destruct (ca a1 b1); simpl; try done. apply (cmp_opp cb).
  - intros [a1 a2] [b1 b2] [c1 c2]; simpl.
    destruct (ca a1 b1) eqn:E1; try done; destruct (ca b1 c1) eqn:E2; try done.
    + apply (cmp_eq ca) in E1, E2; subst. rewrite (cmp_refl ca). apply (cmp_trans cb).
    + apply (cmp_eq ca) in E1; subst. by rewrite E2.
    + apply (cmp_eq ca) in E2; subst. by rewrite E1.
    + by rewrite (cmp_trans ca _ _ _ E1 E2).
Qed.

(** A comparison read through an injective function. *)
Lemma good_compare_inj {A B : Type} (f : A -> B) (cb : B -> B -> comparison)
    `{!GoodCompare cb} :
  (forall x y, f x = f y -> x = y) -> GoodCompare (fun x y => cb (f x) (f y)).
Proof.
  intros Hinj. split.
  - intros a b H. by apply Hinj, (cmp_eq cb).
  - intros a. apply (cmp_refl cb).
  - intros a b. apply (cmp_opp cb).
  - intros a b c. apply (cmp_trans cb).
Qed.

Lemma good_compare_ext {A : Type} (c1 c2 : A -> A -> comparison) `{!GoodCompare c2} :
  (forall x y, c1 x y = c2 x y) -> GoodCompare c1.
Proof.
  intros Hext. split.
  - intros a b. rewrite Hext. apply (cmp_eq c2).
  - intros a. rewrite Hext. apply (cmp_refl c2).
  - intros a b. rewrite !Hext. apply (cmp_opp c2).
  - intros a b c. rewrite !Hext. apply (cmp_trans c2).
Qed.

#[global] Instance date_compare_good : GoodCompare date_compare.
Proof.
  pose (f := fun d : date => (year d, (month d, day d))).
  assert (GoodCompare (fun x y => lex Z.compare (lex Z.compare Z.compare) (f x) (f y)))
    as G.
  { apply good_compare_inj; [apply _|].
    intros [y1 m1 d1] [y2 m2 d2]; unfold f; simpl. congruence. }
  apply (@good_compare_ext _ _ _ G).
  intros [y1 m1 d1] [y2 m2 d2]. unfold date_compare, lex; simpl.
  destruct (y1 ?= y2); [destruct (m1 ?= m2)|..]; reflexivity.
Qed.

#[global] Instance datetime_compare_good : GoodCompare datetime_compare.
Proof.
  pose (f := fun t : datetime => (dt_date t, (hour t, (minute t, second t)))).
  assert (GoodCompare (fun x y =>
            lex date_compare (lex Z.compare (lex Z.compare Z.compare)) (f x) (f y)))
    as G.
  { apply good_compare_inj; [apply _|].
    intros [d1 h1 m1 s1] [d2 h2 m2 s2]; unfold f; simpl. congruence. }
  apply (@good_compare_ext _ _ _ G).
  intros [d1 h1 m1 s1] [d2 h2 m2 s2]. unfold datetime_compare, lex; simpl.
  destruct (date_compare d1 d2); [destruct (h1 ?= h2); [destruct (m1 ?= m2)|..]|..];
    reflexivity.
Qed.

#[global] Instance key_compare_good : GoodCompare key_compare.
Proof.
  apply (good_compare_ext _ (lex datetime_compare String.compare)).
  intros [t1 u1] [t2 u2]. unfold key_compare, lex; simpl.
  destruct (datetime_compare t1 t2); reflexivity.
Qed.

(** ** The sort *)

Lemma key_leb_true a b : key_leb a b = true <-> key_compare a b <> Gt.
Proof. unfold key_leb. destruct (key_compare a b); split; congruence. Qed.

#[global] Instance key_ge_trans : Transitive key_ge.
Proof.
  intros a b c. unfold key_ge. rewrite !key_leb_true.
  intros H1 H2. exact (cmp_le_trans key_compare _ _ _ H2 H1).
Qed.

#[global] Instance key_ge_antisym : AntiSymm (=) key_ge.
Proof.
  intros a b. unfold key_ge. rewrite !key_leb_true.
  intros H1 H2. exact (cmp_le_antisym key_compare _ _ H2 H1).
Qed.

Lemma key_ge_total a b : key_ge a b \/ key_ge b a.
Proof.
  unfold key_ge. rewrite !key_leb_true.
  destruct (cmp_le_total key_compare a b); auto.
Qed.

Lemma insert_desc_perm x l : insert_desc x l ≡ₚ x :: l.
Proof.
  induction l as [|y l IH]; simpl; [done|].
  destruct (key_leb y x); [done|]. rewrite IH. apply Permutation_swap.
Qed.

Lemma sort_desc_perm l : sort_desc l ≡ₚ l.
Proof.
  induction l as [|x l IH]; simpl; [done|]. by rewrite insert_desc_perm, IH.
Qed.

Lemma insert_desc_sorted x l : Sorted key_ge l -> Sorted key_ge (insert_desc x l).
Proof.
  induction 1 as [|y l Hl IH Hhd]; simpl.
  - repeat constructor.
  - destruct (key_leb y x) eqn:E.
    + constructor; [by constructor|]. by constructor.
    + constructor; [done|].
      assert (key_ge y x) as Hyx.
      { destruct (key_ge_total y x) as [|H]; [done|].
        unfold key_ge in H. congruence. }
      destruct Hhd as [|z l Hyz]; simpl; [by constructor|].
      destruct (key_leb z x); by constructor.
Qed.

Lemma sort_desc_sorted l : StronglySorted key_ge (sort_desc l).
Proof.
  apply Sorted_StronglySorted; [apply _|].
  induction l as [|x l IH]; simpl; [constructor|]. by apply insert_desc_sorted.
Qed.

(** The sorted list is a function of the items as a multiset. *)
Lemma sort_desc_unique l1 l2 : l1 ≡ₚ l2 -> sort_desc l1 = sort_desc l2.
Proof.
  intros H. apply (StronglySorted_unique key_ge); try apply sort_desc_sorted.
  by rewrite !sort_desc_perm.
Qed.

(** Whatever the algorithm, a list sorted by descending key that holds the
    same items is the list that [sort_desc] returns. *)
Lemma sort_desc_characterized l l' :
  l' ≡ₚ l -> StronglySorted key_ge l' -> l' = sort_desc l.
Proof.
  intros Hp Hs. apply (StronglySorted_unique key_ge); [done|apply sort_desc_sorted|].
  by rewrite sort_desc_perm.
Qed.

Lemma StronglySorted_lookup {A : Type} (R : A -> A -> Prop) (l : list A) i j a b :
  StronglySorted R l -> (i < j)%nat -> l !! i = Some a -> l !! j = Some b -> R a b.
Proof.
  intros Hs. revert i j. induction Hs as [|x l Hs IH Hx]; intros i j Hij Hi Hj.
  - by rewrite lookup_nil in Hi.
  - destruct j as [|j]; [lia|]. simpl in Hj. destruct i as [|i]; simpl in Hi.
    + injection Hi as <-. rewrite Forall_forall in Hx. apply Hx.
      by eapply list_elem_of_lookup_2.
    + apply (IH i j); [lia|done..].
Qed.

Arguments render_item : simpl never.
Arguments parse_episode_info : simpl never.
Arguments guess_pubdate_from_url : simpl never.
Arguments select_items : simpl never.
Arguments human_title_from_url : simpl never.
Arguments format_datetime : simpl never.
Arguments strftime_b_d_Y : simpl never.
Arguments strftime_B_d_Y : simpl never.
Arguments Str.of_Z : simpl never.

(** ** The date heuristic never raises *)

Lemma fromisoformat_raises s e : fromisoformat s = Raise e -> e = ValueError.
Proof.
  unfold fromisoformat.
  destruct (match_date_at s && (String.length s =? 10)%nat); [|congruence].
  destruct (valid_date _ _ _); congruence.
Qed.

Lemma guess_pubdate_from_url_total url : exists o, guess_pubdate_from_url url = Ok o.
Proof.
  unfold guess_pubdate_from_url.
  destruct (DATE_IN_NAME_RE_search (filename_of url)) as [m|]; [|by eexists].
  destruct (fromisoformat m) as [d|e] eqn:E; simpl; [by eexists|].
  apply fromisoformat_raises in E as ->. by eexists.
Qed.

Lemma sort_key_guess url o :
  guess_pubdate_from_url url = Ok o -> sort_key url = (default epoch o, url).
Proof. unfold sort_key. intros ->. by destruct o. Qed.

Lemma dated_items_eq urls : dated_items urls = Ok (sort_key <$> urls).
Proof.
  induction urls as [|url urls IH]; simpl; [done|].
  destruct (guess_pubdate_from_url_total url) as [o Ho].
  rewrite Ho, IH; simpl. by rewrite (sort_key_guess _ _ Ho).
Qed.

Lemma select_items_eq urls limit :
  select_items urls limit =
  Ok (match limit with
      | Some n => slice_to n (sort_desc (sort_key <$> urls))
      | None => sort_desc (sort_key <$> urls)
      end).
Proof. unfold select_items. by rewrite dated_items_eq. Qed.

Lemma slice_to_subseteq {A : Type} n (l : list A) : slice_to n l ⊆ l.
Proof.
  unfold slice_to. destruct (n <? 0); apply subseteq_take.
Qed.

Lemma select_items_elem urls limit items it :
  select_items urls limit = Ok items -> it ∈ items -> it = sort_key it.2 /\ it.2 ∈ urls.
Proof.
  rewrite select_items_eq. intros [= <-] Hin.
  assert (it ∈ sort_desc (sort_key <$> urls)) as H.
  { destruct limit; [by eapply slice_to_subseteq|done]. }
  rewrite sort_desc_perm in H. apply list_elem_of_fmap in H as (u & -> & Hu).
  done.
Qed.

(** ** The shape of a rendered item *)

Lemma render_item_structured ep pub_dt url d n :
  parse_episode_info url = Ok (Some (d, n)) ->
  render_item ep (pub_dt, url) =
  Ok (item_of ("Ep. " +:+ Str.of_Z n +:+ " — " +:+ strftime_b_d_Y d)
        ("Paradise Valley Music Hour." +:+ String "010" EmptyString
         +:+ "Originally aired " +:+ strftime_B_d_Y d +:+ " on Voice of Vashon.")
        pub_dt url n, Some n).
Proof. unfold render_item. intros ->. reflexivity. Qed.

Lemma render_item_fallback ep pub_dt url :
  parse_episode_info url = Ok None ->
  render_item ep (pub_dt, url) =
  match ep with
  | Some n =>
      Ok (item_of (human_title_from_url url) ("Audio: " +:+ url) pub_dt url n, Some n)
  | None => Raise UnboundLocalError
  end.
Proof. unfold render_item. intros ->. by destruct ep. Qed.

Lemma render_item_shape ep pub_dt url item ep' :
  render_item ep (pub_dt, url) = Ok (item, ep') ->
  exists ttl dsc n, item = item_of ttl dsc pub_dt url n /\ ep' = Some n.
Proof.
  destruct (parse_episode_info url) as [[[d n]|]|e] eqn:E.
  - rewrite (render_item_structured _ _ _ _ _ E). intros [= <- <-]. eauto.
  - rewrite (render_item_fallback _ _ _ E). destruct ep; [|done].
    intros [= <- <-]. eauto.
  - unfold render_item. rewrite E. done.
Qed.

Lemma findall_item_of tg ttl dsc pub_dt url n :
  findall tg (item_of ttl dsc pub_dt url n) =
  List.filter (fun c => String.eqb (tag c) tg)
    [text_element "title" ttl; text_element "link" url;
     text_element "guid" url; text_element "description" dsc]
  ++ List.filter (fun c => String.eqb (tag c) tg) (pubDate_of pub_dt)
  ++ List.filter (fun c => String.eqb (tag c) tg)
       [enclosure_of url; text_element "itunes:episode" (Str.of_Z n);
        text_element "itunes:episodeType" "full"].
Proof. unfold findall, item_of. cbn [children]. by rewrite !List.filter_app. Qed.

Lemma render_items_shape ep items rendered :
  render_items ep items = Ok rendered ->
  Forall2 (fun it item => exists ttl dsc n, item = item_of ttl dsc it.1 it.2 n)
          items rendered.
Proof.
  revert ep rendered. induction items as [|[pub_dt url] items IH]; intros ep rendered.
  - intros [= <-]. constructor.
  - simpl. destruct (render_item ep (pub_dt, url)) as [[item ep']|e] eqn:E; [|done].
    simpl. destruct (render_items ep' items) as [more|e] eqn:E'; [|done].
    intros [= <-]. constructor; [|by eapply IH].
    apply render_item_shape in E as (ttl & dsc & n & -> & _). eauto.
Qed.

Lemma findall_item_rendered items rendered :
  Forall2 (fun it item => exists ttl dsc n, item = item_of ttl dsc it.1 it.2 n)
          items rendered ->
  List.filter (fun c => String.eqb (tag c) "item") rendered = rendered.
Proof.
  induction 1 as [|it item items rendered (ttl & dsc & n & ->) _ IH]; [done|].
  simpl. by rewrite IH.
Qed.

Lemma feed_items_build_rss_tree now urls ft fd su img limit rss :
  build_rss_tree now urls ft fd su img limit = Ok rss ->
  exists items,
    select_items urls limit = Ok items
    /\ render_items None items = Ok (feed_items rss).
Proof.
  unfold build_rss_tree.
  destruct (select_items urls limit) as [items|e] eqn:Es; [|done]. simpl.
  destruct (render_items None items) as [rendered|e] eqn:Er; [|done]. simpl.
  intros [= <-]. exists items. split; [done|].
  pose proof (findall_item_rendered _ _ (render_items_shape _ _ _ Er)) as Hf.
  unfold feed_items, findall. cbn [children List.filter tag String.eqb Ascii.eqb
    Bool.eqb List.map concat]. rewrite app_nil_r.
  unfold channel_head. rewrite List.filter_app, Hf.
  by destruct img as [[|a u]|].
Qed.

Lemma feed_items_spec now urls ft fd su img limit rss :
  build_rss_tree now urls ft fd su img limit = Ok rss ->
  exists items,
    select_items urls limit = Ok items
    /\ Forall2 (fun it item => exists ttl dsc n, item = item_of ttl dsc it.1 it.2 n)
               items (feed_items rss).
Proof.
  intros H. apply feed_items_build_rss_tree in H as (items & Hs & Hr).
  exists items. split; [done|]. by eapply render_items_shape.
Qed.

Lemma findall_pubDate ttl dsc pub_dt url n :
  findall "pubDate" (item_of ttl dsc pub_dt url n) = pubDate_of pub_dt.
Proof.
  rewrite findall_item_of. unfold pubDate_of.
  by destruct (bool_decide (year (dt_date pub_dt) ≠ 1970)).
Qed.

Lemma findall_enclosure ttl dsc pub_dt url n :
  findall "enclosure" (item_of ttl dsc pub_dt url n) = [enclosure_of url].
Proof.
  rewrite findall_item_of. unfold pubDate_of.
  by destruct (bool_decide (year (dt_date pub_dt) ≠ 1970)).
Qed.

Lemma findall_episode ttl dsc pub_dt url n :
  findall "itunes:episode" (item_of ttl dsc pub_dt url n) =
  [text_element "itunes:episode" (Str.of_Z n)].
Proof.
  rewrite findall_item_of. unfold pubDate_of.
  by destruct (bool_decide (year (dt_date pub_dt) ≠ 1970)).
Qed.

Lemma child_text_title ttl dsc pub_dt url n :
  child_text "title" (item_of ttl dsc pub_dt url n) = Some ttl.
Proof.
  unfold child_text. rewrite findall_item_of. unfold pubDate_of.
  by destruct (bool_decide (year (dt_date pub_dt) ≠ 1970)).
Qed.

Lemma child_text_link ttl dsc pub_dt url n :
  child_text "link" (item_of ttl dsc pub_dt url n) = Some url.
Proof.
  unfold child_text. rewrite findall_item_of. unfold pubDate_of.
  by destruct (bool_decide (year (dt_date pub_dt) ≠ 1970)).
Qed.

Lemma child_text_guid ttl dsc pub_dt url n :
  child_text "guid" (item_of ttl dsc pub_dt url n) = Some url.
Proof.
  unfold child_text. rewrite findall_item_of. unfold pubDate_of.
  by destruct (bool_decide (year (dt_date pub_dt) ≠ 1970)).
Qed.

Lemma child_text_description ttl dsc pub_dt url n :
  child_text "description" (item_of ttl dsc pub_dt url n) = Some dsc.
Proof.
  unfold child_text. rewrite findall_item_of. unfold pubDate_of.
  by destruct (bool_decide (year (dt_date pub_dt) ≠ 1970)).
Qed.

(** ** The episode number of an item *)

Lemma render_items_raise_head ep it rest e :
  render_item ep it = Raise e -> render_items ep (it :: rest) = Raise e.
Proof. intros H. cbn [render_items]. by rewrite H. Qed.

Lemma build_rss_raise_head now urls ft fd su img limit it rest e :
  select_items urls limit = Ok (it :: rest) ->
  render_item None it = Raise e ->
  build_rss now urls ft fd su img limit = Raise e.
Proof.
  intros Hs Hr. unfold build_rss, build_rss_tree. rewrite Hs. cbn [mbind result_bind].
  by rewrite (render_items_raise_head _ _ _ _ Hr).
Qed.

(** C1: the code does not keep the episode-number element out of an item
    whose file name misses the structured pattern.  Alone in the feed, such an
    item makes [build_rss] raise at the read of the unbound [ep]; after an
    item that matched, it is rendered with the episode number of that item. *)
Theorem fallback_item_episode_number now ft fd su img :
  parse_episode_info url_random = Ok None
  /\ build_rss now [url_random] ft fd su img None = Raise UnboundLocalError
  /\ exists rss it1 it2,
       build_rss_tree now [url_random; url_ep12] ft fd su img None = Ok rss
       /\ feed_items rss = [it1; it2]
       /\ child_text "guid" it2 = Some url_random
       /\ child_text "itunes:episode" it2 = Some "12".
Proof.
  assert (parse_episode_info url_random = Ok None) as Hp by (by vm_compute).
  split; [done|]. split.
  - eapply build_rss_raise_head; [by vm_compute|].
    by rewrite (render_item_fallback _ _ _ Hp).
  - unfold build_rss_tree.
    assert (select_items [url_random; url_ep12] None =
            Ok [sort_key url_ep12; sort_key url_random]) as -> by (by vm_compute).
    cbn [mbind result_bind render_items].
    assert (parse_episode_info url_ep12 = Ok (Some (mkdate 2024 1 5, 12))) as Hq
      by (by vm_compute).
    unfold sort_key at 1 2.
    rewrite (render_item_structured _ _ _ _ _ Hq). cbn [mbind result_bind].
    rewrite (render_item_fallback _ _ _ Hp). cbn [mbind result_bind].
    do 3 eexists. split; [reflexivity|]. split.
    + unfold feed_items, findall. cbn [children List.map tag List.filter String.eqb
        Ascii.eqb Bool.eqb concat]. rewrite app_nil_r.
      unfold channel_head. rewrite List.filter_app.
      replace (List.filter _ (_ ++ match img with Some (String a u) => _ | _ => _ end))
        with (@nil Element) by (by destruct img as [[|a u]|]).
      reflexivity.
    + split; [apply child_text_guid|].
      unfold child_text. rewrite findall_episode. reflexivity.
Qed.

(** C2: [build_rss] raises.  When the first item of the feed has a file name
    that misses the structured pattern, the read of the unbound [ep] raises
    [UnboundLocalError]; when its structured match captured a text that is no
    day of the calendar, [parse_episode_info] raises [ValueError]. *)
Theorem build_rss_raises now urls ft fd su img limit it rest :
  select_items urls limit = Ok (it :: rest) ->
  (parse_episode_info it.2 = Ok None ->
   build_rss now urls ft fd su img limit = Raise UnboundLocalError)
  /\ (parse_episode_info it.2 = Raise ValueError ->
      build_rss now urls ft fd su img limit = Raise ValueError).
Proof.
  intros Hs. destruct it as [pub_dt url]. split; intros Hp; simpl in Hp.
  - eapply build_rss_raise_head; [done|]. by rewrite (render_item_fallback _ _ _ Hp).
  - eapply build_rss_raise_head; [done|]. unfold render_item. by rewrite Hp.
Qed.

Lemma build_rss_raises_witness :
  build_rss now0 [url_random] "T" "D" "S" None None = Raise UnboundLocalError
  /\ build_rss now0 [url_bad_date] "T" "D" "S" None None = Raise ValueError.
Proof.
  split.
  - apply (build_rss_raises now0 [url_random] "T" "D" "S" None None
             (sort_key url_random) []); by vm_compute.
  - apply (build_rss_raises now0 [url_bad_date] "T" "D" "S" None None
             (sort_key url_bad_date) []); by vm_compute.
Defined.

(** When every URL matches the structured pattern with a day of the
    calendar, [build_rss] returns. *)
Lemma render_items_structured ep items :
  Forall (fun it => exists d n, parse_episode_info it.2 = Ok (Some (d, n))) items ->
  exists rendered, render_items ep items = Ok rendered.
Proof.
  intros H. revert ep. induction H as [|[pub_dt url] items (d & n & Hp) _ IH];
    intros ep; [by eexists|].
  cbn [render_items]. simpl in Hp. rewrite (render_item_structured _ _ _ _ _ Hp).
  cbn [mbind result_bind]. destruct (IH (Some n)) as [rendered ->]. by eexists.
Qed.

Lemma build_rss_structured now urls ft fd su img limit :
  Forall (fun url => exists d n, parse_episode_info url = Ok (Some (d, n))) urls ->
  exists xml, build_rss now urls ft fd su img limit = Ok xml.
Proof.
  intros H. unfold build_rss, build_rss_tree.
  destruct (select_items urls limit) as [items|e] eqn:Hs;
    [|by rewrite select_items_eq in Hs].
  cbn [mbind result_bind].
  destruct (render_items_structured None items) as [rendered ->]; [|by eexists].
  apply Forall_forall. intros it Hit.
  destruct (select_items_elem _ _ _ _ Hs Hit) as [_ Hin].
  rewrite Forall_forall in H. by apply H.
Qed.

(** ** The items of a feed and the URLs they come from *)

Lemma feed_item_lookup now urls ft fd su img limit rss i item :
  build_rss_tree now urls ft fd su img limit = Ok rss ->
  feed_items rss !! i = Some item ->
  exists items it ttl dsc n,
    select_items urls limit = Ok items /\ items !! i = Some it
    /\ it = sort_key it.2 /\ it.2 ∈ urls
    /\ item = item_of ttl dsc it.1 it.2 n.
Proof.
  intros Hb Hi. apply feed_items_spec in Hb as (items & Hs & Hf).
  destruct (Forall2_lookup_r _ _ _ _ _ Hf Hi) as (it & Hit & ttl & dsc & n & ->).
  exists items, it, ttl, dsc, n.
  destruct (select_items_elem _ _ _ it Hs) as [? ?]; [by eapply list_elem_of_lookup_2|].
  done.
Qed.

(** C3, as the code has it: an item of the feed has a [pubDate] element if
    and only if the date heuristic found a date for its URL and the year of
    that date is not 1970; the element then carries that date. *)
Theorem pubDate_iff_year_not_1970 now urls ft fd su img limit rss i item :
  build_rss_tree now urls ft fd su img limit = Ok rss ->
  feed_items rss !! i = Some item ->
  exists url o,
    url ∈ urls /\ child_text "guid" item = Some url
    /\ guess_pubdate_from_url url = Ok o
    /\ findall "pubDate" item =
       match o with
       | Some t =>
           if bool_decide (year (dt_date t) ≠ 1970)
           then [text_element "pubDate" (format_datetime t)] else []
       | None => []
       end.
Proof.
  intros Hb Hi.
  destruct (feed_item_lookup _ _ _ _ _ _ _ _ _ _ Hb Hi)
    as (items & [pub_dt url] & ttl & dsc & n & Hs & Hit & Hkey & Hin & ->).
  simpl in *. destruct (guess_pubdate_from_url_total url) as [o Ho].
  exists url, o. rewrite child_text_guid, findall_pubDate.
  rewrite (sort_key_guess _ _ Ho) in Hkey. injection Hkey as ->.
  repeat split; try done. by destruct o.
Qed.

Lemma pubDate_iff_year_not_1970_witness :
  exists url o,
    url ∈ [url_ep12] /\ child_text "guid" item_ep12 = Some url
    /\ guess_pubdate_from_url url = Ok o
    /\ findall "pubDate" item_ep12 =
       match o with
       | Some t =>
           if bool_decide (year (dt_date t) ≠ 1970)
           then [text_element "pubDate" (format_datetime t)] else []
       | None => []
       end.
Proof.
  apply (pubDate_iff_year_not_1970 now0 [url_ep12] "T" "D" "S" None None rss_ep12 0);
    vm_compute; reflexivity.
Defined.

(** C3 as it is stated fails: the heuristic finds the date 1970-06-15 for
    this URL, and the item rendered for it has no [pubDate] element. *)
Lemma pubDate_missing_for_date_in_1970 :
  exists rss item t,
    build_rss_tree now0 [url_1970] "T" "D" "S" None None = Ok rss
    /\ feed_items rss = [item]
    /\ guess_pubdate_from_url url_1970 = Ok (Some t)
    /\ findall "pubDate" item = [].
Proof.
  do 3 eexists. split; [vm_compute; reflexivity|].
  split; [vm_compute; reflexivity|]. split; vm_compute; reflexivity.
Qed.

(** C10: in every item of the feed, the [url] attribute of the enclosure,
    the link and the guid are the URL of the item of the same rank in the
    sorted and truncated list, which is one of the input URLs. *)
Theorem enclosure_url_is_input_url now urls ft fd su img limit rss i item :
  build_rss_tree now urls ft fd su img limit = Ok rss ->
  feed_items rss !! i = Some item ->
  exists items it e,
    select_items urls limit = Ok items /\ length (feed_items rss) = length items
    /\ items !! i = Some it /\ it.2 ∈ urls
    /\ findall "enclosure" item = [e] /\ get "url" (attrib e) = Some it.2
    /\ child_text "link" item = Some it.2
    /\ child_text "guid" item = Some it.2.
Proof.
  intros Hb Hi.
  destruct (feed_item_lookup _ _ _ _ _ _ _ _ _ _ Hb Hi)
    as (items & it & ttl & dsc & n & Hs & Hit & Hkey & Hin & ->).
  exists items, it, (enclosure_of it.2).
  rewrite findall_enclosure, child_text_link, child_text_guid.
  repeat split; try done.
  apply feed_items_spec in Hb as (items' & Hs' & Hf).
  rewrite Hs in Hs'. injection Hs' as <-. symmetry. by eapply Forall2_length.
Qed.

Lemma enclosure_url_is_input_url_witness :
  exists items it e,
    select_items [url_ep12] None = Ok items
    /\ length (feed_items rss_ep12) = length items
    /\ items !! 0%nat = Some it /\ it.2 ∈ [url_ep12]
    /\ findall "enclosure" item_ep12 = [e] /\ get "url" (attrib e) = Some it.2
    /\ child_text "link" item_ep12 = Some it.2
    /\ child_text "guid" item_ep12 = Some it.2.
Proof.
  apply (enclosure_url_is_input_url now0 [url_ep12] "T" "D" "S" None None rss_ep12 0);
    vm_compute; reflexivity.
Defined.

(** ** The order of the items *)

Lemma key_ge_unfold a b :
  key_ge a b ->
  datetime_compare b.1 a.1 = Lt \/ (b.1 = a.1 /\ String.compare b.2 a.2 <> Gt).
Proof.
  unfold key_ge. rewrite key_leb_true. unfold key_compare.
  destruct (datetime_compare b.1 a.1) eqn:E; intros H.
  - right. split; [|done]. by apply (cmp_eq datetime_compare).
  - by left.
  - done.
Qed.

(** C4, as the code has it: the items are the input URLs under their keys
    (guessed date or the date of the epoch, URL), sorted by descending key:
    dates descend and equal dates are in reverse lexical order of the URLs.
    An item dated after 1970-01-01 comes before every undated item.  The
    order depends on the input as a multiset only. *)
Theorem items_sorted_by_key_descending (urls : list string) :
  exists items,
    select_items urls None = Ok items
    /\ items ≡ₚ sort_key <$> urls
    /\ (forall i j a b,
          (i < j)%nat -> items !! i = Some a -> items !! j = Some b ->
          datetime_compare b.1 a.1 = Lt
          \/ (b.1 = a.1 /\ String.compare b.2 a.2 <> Gt))
    /\ (forall i j a b t,
          items !! i = Some a -> items !! j = Some b ->
          guess_pubdate_from_url a.2 = Ok (Some t) ->
          datetime_compare epoch t = Lt ->
          guess_pubdate_from_url b.2 = Ok None -> (i < j)%nat)
    /\ (forall urls', urls' ≡ₚ urls -> select_items urls' None = Ok items).
Proof.
  exists (sort_desc (sort_key <$> urls)).
  assert (forall i j a b,
            (i < j)%nat -> sort_desc (sort_key <$> urls) !! i = Some a ->
            sort_desc (sort_key <$> urls) !! j = Some b ->
            datetime_compare b.1 a.1 = Lt
            \/ (b.1 = a.1 /\ String.compare b.2 a.2 <> Gt)) as Hsorted.
  { intros i j a b Hij Hi Hj. apply key_ge_unfold.
    by eapply (StronglySorted_lookup key_ge), Hj; [apply sort_desc_sorted|..]. }
  assert (forall i a, sort_desc (sort_key <$> urls) !! i = Some a -> a = sort_key a.2)
    as Hkey.
  { intros i a Hi. apply list_elem_of_lookup_2 in Hi. rewrite sort_desc_perm in Hi.
    by apply list_elem_of_fmap in Hi as (u & -> & _). }
  split; [apply select_items_eq|]. split; [apply sort_desc_perm|].
  split; [done|]. split.
  - intros i j a b t Hi Hj Ha Ht Hb.
    pose proof (Hkey _ _ Hi) as Ka. pose proof (Hkey _ _ Hj) as Kb.
    rewrite (sort_key_guess _ _ Ha) in Ka. rewrite (sort_key_guess _ _ Hb) in Kb.
    destruct a as [ta ua], b as [tb ub]; simpl in *.
    injection Ka as ->. injection Kb as ->.
    destruct (lt_eq_lt_dec i j) as [[Hlt|Heq]|Hgt]; [done|..].
    + subst j. rewrite Hi in Hj. injection Hj as -> ->.
      rewrite (cmp_refl datetime_compare) in Ht. discriminate.
    + destruct (Hsorted _ _ _ _ Hgt Hj Hi) as [H|[H _]]; simpl in H.
      * rewrite (cmp_opp datetime_compare), H in Ht. discriminate.
      * subst t. rewrite (cmp_refl datetime_compare) in Ht. discriminate.
  - intros urls' Hp. rewrite select_items_eq. f_equal.
    apply sort_desc_unique. by rewrite Hp.
Qed.

(** C4 as it is stated fails: the file dated 1969-07-20 comes after the
    undated one. *)
Lemma dated_item_after_undated_item :
  exists items a b t,
    select_items [url_1969; url_random] None = Ok items
    /\ items !! 0%nat = Some b /\ items !! 1%nat = Some a
    /\ guess_pubdate_from_url a.2 = Ok (Some t)
    /\ guess_pubdate_from_url b.2 = Ok None.
Proof.
  do 4 eexists. split; [vm_compute; reflexivity|].
  split; [reflexivity|]. split; [reflexivity|].
  split; vm_compute; reflexivity.
Qed.

(** ** The limit *)

Lemma slice_to_nonneg {A : Type} (n : Z) (l : list A) :
  0 <= n -> slice_to n l = take (Z.to_nat n) l.
Proof. intros H. unfold slice_to. by destruct (Z.ltb_spec n 0); [lia|]. Qed.

Lemma slice_to_neg {A : Type} (n : Z) (l : list A) :
  n < 0 -> slice_to n l = take (length l - Z.to_nat (- n)) l.
Proof.
  intros H. unfold slice_to. destruct (Z.ltb_spec n 0); [|lia].
  f_equal. lia.
Qed.

(** C9, as the code has it: with a limit [n] that is not negative, the items
    of the feed are the first [n] items of the sorted list, all of them when
    there are fewer; a negative limit drops the last [-n] items instead. *)
Theorem limit_truncates_sorted_items now urls ft fd su img (n : Z) :
  exists sorted,
    select_items urls None = Ok sorted
    /\ (n < 0 ->
        select_items urls (Some n) = Ok (take (length sorted - Z.to_nat (- n)) sorted))
    /\ (0 <= n ->
        select_items urls (Some n) = Ok (take (Z.to_nat n) sorted)
        /\ forall rss,
             build_rss_tree now urls ft fd su img (Some n) = Ok rss ->
             length (feed_items rss) = Nat.min (Z.to_nat n) (length urls)
             /\ child_text "guid" <$> feed_items rss
                = (fun it => Some it.2) <$> take (Z.to_nat n) sorted).
Proof.
  exists (sort_desc (sort_key <$> urls)).
  split; [apply select_items_eq|]. split.
  - intros Hn. by rewrite select_items_eq, slice_to_neg.
  - intros Hn.
    assert (select_items urls (Some n)
            = Ok (take (Z.to_nat n) (sort_desc (sort_key <$> urls)))) as Hs
      by (by rewrite select_items_eq, slice_to_nonneg).
    split; [done|]. intros rss Hb.
    apply feed_items_spec in Hb as (items & Hs' & Hf).
    rewrite Hs in Hs'. injection Hs' as <-. split.
    + rewrite <- (Forall2_length _ _ _ Hf), length_take.
      pose proof (Permutation_length (sort_desc_perm (sort_key <$> urls))) as Hl.
      rewrite length_fmap in Hl. by rewrite Hl.
    + clear Hs. induction Hf as [|it item its items' (ttl & dsc & k & ->) _ IH]; [done|].
      cbn [fmap list_fmap]. rewrite child_text_guid. f_equal. apply IH.
Qed.

(** C9 as it is stated fails: the limit [-1] on three URLs leaves two items. *)
Lemma negative_limit_keeps_items :
  exists sorted items,
    select_items [url_ep12; url_ep13; url_random] None = Ok sorted
    /\ select_items [url_ep12; url_ep13; url_random] (Some (-1)) = Ok items
    /\ length items = 2%nat
    /\ items <> take (Z.to_nat (-1)) sorted.
Proof.
  do 2 eexists. split; [vm_compute; reflexivity|].
  split; [vm_compute; reflexivity|]. split; [reflexivity|]. discriminate.
Qed.

(** The limit 1 on three episodes: one item, the newest. *)
Example limit_one_of_three :
  exists rss item,
    build_rss_tree now0 [url_ep12; url_ep13; url_random] "T" "D" "S" None (Some 1)
    = Ok rss
    /\ feed_items rss = [item] /\ child_text "guid" item = Some url_ep13.
Proof.
  do 2 eexists. split; [vm_compute; reflexivity|].
  split; vm_compute; reflexivity.
Qed.

(** ** The extractor *)

Section ExtractorFacts.

#[local] Set Warnings "-clear-no-such-hyp".

Variable unescape : string -> string.
Variable urljoin : string -> string -> string.

Lemma dedup_acc_spec l : forall urls,
  NoDup urls ->
  NoDup (dedup_acc urls l)
  /\ (forall u, u ∈ dedup_acc urls l <-> u ∈ urls \/ u ∈ l)
  /\ (forall pre u post,
        l = pre ++ u :: post -> u ∉ pre -> u ∉ urls ->
        exists opre opost,
          dedup_acc urls l = opre ++ u :: opost
          /\ forall v, v ∈ opre <-> v ∈ urls \/ v ∈ pre)
  /\ exists ext, dedup_acc urls l = urls ++ ext.
Proof.
  induction l as [|c l IH]; intros urls Hnd; simpl.
  - split; [done|]. split; [set_solver|]. split.
    + intros [|??] ???; discriminate.
    + exists []. by rewrite app_nil_r.
  - case_bool_decide as Hc.
    + destruct (IH urls Hnd) as (H1 & H2 & H3 & H4).
      split; [done|]. split; [set_solver|]. split; [|done].
      intros pre u post Hl Hpre Hu. destruct pre as [|c' pre]; simpl in Hl.
      * simplify_eq. done.
      * simplify_eq.
        destruct (H3 pre u post eq_refl) as (opre & opost & -> & Hv); [set_solver|done|].
        exists opre, opost. split; [done|]. set_solver.
    + assert (NoDup (urls ++ [c])) as Hnd'.
      { apply NoDup_app. split; [done|]. split; [set_solver|]. apply NoDup_singleton. }
      destruct (IH (urls ++ [c]) Hnd') as (H1 & H2 & H3 & ext & H4).
      split; [done|]. split; [set_solver|]. split.
      * intros pre u post Hl Hpre Hu. destruct pre as [|c' pre]; simpl in Hl.
        -- simplify_eq. exists urls, ext.
           split; [by rewrite H4, <- app_assoc|]. set_solver.
        -- simplify_eq.
           destruct (H3 pre u post eq_refl) as (opre & opost & -> & Hv);
             [set_solver|set_solver|].
           exists opre, opost. split; [done|]. set_solver.
      * exists ([c] ++ ext). by rewrite H4, <- app_assoc.
Qed.

Lemma extract_fold base_url gs : forall urls (seen : gset string),
  (forall c, c ∈ seen <-> c ∈ urls) ->
  (foldl (extract_step unescape urljoin base_url) (urls, seen) gs).1
  = dedup_acc urls
      (List.filter (fun u => Str.startswith "http://" u || Str.startswith "https://" u)
         (List.map (fun g => urljoin base_url (unescape g)) gs)).
Proof.
  induction gs as [|g gs IH]; intros urls seen Hseen; [done|].
  cbn [foldl List.map List.filter]. unfold extract_step at 2, absolutize.
  destruct (Str.startswith "http://" _ || Str.startswith "https://" _); simpl.
  - case_bool_decide as H1; case_bool_decide as H2;
      try (exfalso; set_solver); apply IH; set_solver.
  - by apply IH.
Qed.

(** C7: the output of the extractor has no duplicate, holds exactly the
    candidate URLs, and lists them in the order of their first occurrences:
    what stands before a URL in the output is what stands before its first
    occurrence among the candidates. *)
Theorem extract_mp3_urls_unique_first_seen (page_html base_url : string) :
  let out := extract_mp3_urls unescape urljoin page_html base_url in
  let cands := candidates unescape urljoin page_html base_url in
  NoDup out
  /\ (forall u, u ∈ out <-> u ∈ cands)
  /\ (forall pre u post,
        cands = pre ++ u :: post -> u ∉ pre ->
        exists opre opost,
          out = opre ++ u :: opost /\ forall v, v ∈ opre <-> v ∈ pre).
Proof.
  intros out cands.
  assert (out = dedup_acc [] cands) as ->.
  { unfold out, extract_mp3_urls, cands, candidates, MP3_RE_finditer.
    apply extract_fold. set_solver. }
  destruct (dedup_acc_spec cands [] (NoDup_nil_2)) as (H1 & H2 & H3 & _).
  split; [done|]. split; [set_solver|].
  intros pre u post Hl Hpre.
  destruct (H3 pre u post Hl Hpre) as (opre & opost & -> & Hv); [set_solver|].
  exists opre, opost. split; [done|]. set_solver.
Qed.

End ExtractorFacts.

Example extract_mp3_urls_example :
  extract_mp3_urls (fun s => s) (fun base u => base +:+ u)
    "<a HREF='a.MP3'>x</a> <a href='b.mp3'></a> <a href='.mp3'> href='c.mp4' href='a.MP3'"
    base_url
  = [base_url +:+ "a.MP3"; base_url +:+ "b.mp3"].
Proof. vm_compute. reflexivity. Qed.

(** ** The exit status *)

(** Without a link, the run ends with status 2, the diagnostic that names
    the page on the standard error, and nothing on the standard output. *)
Lemma no_links_exit_status now unescape urljoin (a : args) (page_html : string) :
  extract_mp3_urls unescape urljoin page_html (page a) = [] ->
  run now unescape urljoin a page_html
  = mkoutcome 2 EmptyString
      ("ERROR: No .mp3 links found on " +:+ page a +:+ String "010" EmptyString).
Proof. intros H. unfold run, main. by rewrite H. Qed.

(** With links, the status is 0 and the feed is on the standard output when
    [build_rss] returns. *)
Lemma links_exit_status_ok now unescape urljoin (a : args) (page_html : string) u urls xml :
  extract_mp3_urls unescape urljoin page_html (page a) = u :: urls ->
  build_rss now (u :: urls) (title a) (desc a) (site a) (image a) (limit a) = Ok xml ->
  run now unescape urljoin a page_html = mkoutcome 0 xml EmptyString.
Proof. intros H1 H2. unfold run, main. by rewrite H1, H2. Qed.

(** C8: a page with one link, to [random_track.mp3]: a link is found, and the
    run ends with status 1 after the [UnboundLocalError] of [build_rss], not
    with status 0.  The two hypotheses say what the library functions do on
    this URL, which is absolute and has no character reference. *)
Theorem link_found_exit_status_1 now unescape urljoin pg st tt ds im :
  unescape url_random = url_random ->
  urljoin pg url_random = url_random ->
  extract_mp3_urls unescape urljoin page_random pg = [url_random]
  /\ run now unescape urljoin (mkargs pg st tt ds im None) page_random
     = mkoutcome 1 EmptyString (traceback UnboundLocalError).
Proof.
  intros Hu Hj.
  assert (extract_mp3_urls unescape urljoin page_random pg = [url_random]) as He.
  { unfold extract_mp3_urls.
    assert (MP3_RE_finditer page_random = [url_random]) as ->
      by (vm_compute; reflexivity).
    cbn [foldl]. unfold extract_step, absolutize. rewrite Hu, Hj.
    assert (Str.startswith "http://" url_random || Str.startswith "https://" url_random
            = true) as -> by (vm_compute; reflexivity).
    cbn [negb]. rewrite bool_decide_eq_true_2; [done|set_solver]. }
  split; [done|]. unfold run, main. cbn [page title desc site image limit]. rewrite He.
  assert (build_rss now [url_random] tt ds st im None = Raise UnboundLocalError) as ->.
  { eapply build_rss_raise_head; [vm_compute; reflexivity|].
    rewrite render_item_fallback; [done|vm_compute; reflexivity]. }
  reflexivity.
Qed.

Lemma link_found_exit_status_1_witness :
  extract_mp3_urls (fun s => s) (fun _ u => u) page_random base_url = [url_random]
  /\ run now0 (fun s => s) (fun _ u => u)
       (mkargs base_url "S" "T" "D" None None) page_random
     = mkoutcome 1 EmptyString (traceback UnboundLocalError).
Proof.
  apply (link_found_exit_status_1 now0 (fun s => s) (fun _ u => u)
           base_url "S" "T" "D" None); reflexivity.
Defined.

(** ** Strings *)

Lemma append_cons a (s t : string) : String a s +:+ t = String a (s +:+ t).
Proof. done. Qed.


Lemma append_nil_r (s : string) : s +:+ EmptyString = s.
Proof. induction s as [|a s IH]; [done|]. by rewrite append_cons, IH. Qed.

Lemma append_assoc (s t u : string) : (s +:+ t) +:+ u = s +:+ t +:+ u.
Proof. induction s as [|a s IH]; [done|]. by rewrite !append_cons, IH. Qed.

Lemma length_append (s t : string) :
  String.length (s +:+ t) = (String.length s + String.length t)%nat.
Proof.
  induction s as [|a s IH]; [done|]. rewrite append_cons. simpl. by rewrite IH.
Qed.


Lemma drop_append_length (s t : string) : Str.drop (String.length s) (s +:+ t) = t.
Proof. induction s as [|a s IH]; [by destruct t|]. by rewrite append_cons. Qed.


Lemma drop_S n a (s : string) : Str.drop (S n) (String a s) = Str.drop n s.
Proof. done. Qed.

Lemma drop_drop n m (s : string) : Str.drop n (Str.drop m s) = Str.drop (m + n) s.
Proof.
  revert s. induction m as [|m IH]; intros s; [done|].
  destruct s as [|a s]; simpl; [by destruct n|]. apply IH.
Qed.

Lemma mem_append c (s t : string) : Str.mem c (s +:+ t) = Str.mem c s || Str.mem c t.
Proof.
  induction s as [|a s IH]; [done|]. rewrite append_cons. cbn [Str.mem].
  by rewrite IH, orb_assoc.
Qed.

(** ** The shape of a date *)

Lemma match_date_at_length s : match_date_at s = true -> (10 <= String.length s)%nat.
Proof.
  do 10 (destruct s as [|? s]; [done|]). simpl. lia.
Qed.

Lemma match_date_at_append s t :
  (10 <= String.length s)%nat -> match_date_at (s +:+ t) = match_date_at s.
Proof.
  do 10 (destruct s as [|? s]; [simpl; lia|]). done.
Qed.

Lemma take_10_append s t :
  (10 <= String.length s)%nat -> Str.take 10 (s +:+ t) = Str.take 10 s.
Proof.
  do 10 (destruct s as [|? s]; [simpl; lia|]). done.
Qed.



Lemma DATE_IN_NAME_RE_search_unfold s :
  DATE_IN_NAME_RE_search s =
  if match_date_at s then Some (Str.take 10 s)
  else match s with
       | EmptyString => None
       | String _ s' => DATE_IN_NAME_RE_search s'
       end.
Proof. by destruct s. Qed.

Lemma DATE_IN_NAME_RE_search_length s m :
  DATE_IN_NAME_RE_search s = Some m -> (10 <= String.length s)%nat.
Proof.
  induction s as [|a s IH]; rewrite DATE_IN_NAME_RE_search_unfold.
  - done.
  - destruct (match_date_at (String a s)) eqn:E.
    + intros _. by apply match_date_at_length.
    + intros H. apply IH in H. simpl. lia.
Qed.




(** ** A file name holds no line feed *)

Lemma mem_remove_same c s : Str.mem c (Str.remove c s) = false.
Proof.
  induction s as [|a s IH]; simpl; [done|].
  destruct (Ascii.eqb a c) eqn:E; [done|]. simpl. by rewrite E.
Qed.

Lemma mem_remove c d s : Str.mem c s = false -> Str.mem c (Str.remove d s) = false.
Proof.
  induction s as [|a s IH]; simpl; [done|]. intros [H1 H2]%orb_false_iff.
  destruct (Ascii.eqb a d); [auto|]. simpl. rewrite H1. auto.
Qed.

Lemma mem_drop c n s : Str.mem c s = false -> Str.mem c (Str.drop n s) = false.
Proof.
  revert s. induction n as [|n IH]; intros [|a s]; simpl; try done.
  intros [_ H]%orb_false_iff. auto.
Qed.

Lemma mem_after_netloc c s :
  Str.mem c s = false -> Str.mem c (Url.after_netloc s) = false.
Proof.
  induction s as [|a s IH]; [done|]. cbn [Url.after_netloc].
  destruct (Ascii.eqb a "/" || Ascii.eqb a "?" || Ascii.eqb a "#"); [done|].
  simpl. intros [_ H]%orb_false_iff. auto.
Qed.

Lemma mem_split_head c sep s :
  Str.mem c s = false -> Str.mem c (Str.split_head sep s) = false.
Proof.
  induction s as [|a s IH]; simpl; [done|]. intros [H1 H2]%orb_false_iff.
  destruct (Ascii.eqb a sep); [done|]. simpl. rewrite H1. auto.
Qed.

Lemma mem_rsplit_head c sep s :
  Str.mem c s = false -> Str.mem c (Str.rsplit_head sep s) = false.
Proof.
  induction s as [|a s IH]; [done|]. cbn [Str.rsplit_head].
  intros H. pose proof H as [H1 H2]%orb_false_iff.
  destruct (Str.mem sep s); [simpl; rewrite H1; auto|].
  by destruct (Ascii.eqb a sep).
Qed.

Lemma mem_rsplit_last c sep s :
  Str.mem c s = false -> Str.mem c (Str.rsplit_last sep s) = false.
Proof.
  induction s as [|a s IH]; [done|]. cbn [Str.rsplit_last].
  intros H. pose proof H as [H1 H2]%orb_false_iff.
  destruct (Str.mem sep s); [auto|]. by destruct (Ascii.eqb a sep).
Qed.

Lemma mem_split_scheme c url :
  Str.mem c url = false -> Str.mem c (Url.split_scheme url).2 = false.
Proof.
  intros H. unfold Url.split_scheme.
  destruct (Str.mem ":" url); [|done].
  destruct (Str.split_head ":" url) as [|a pre]; [done|].
  destruct (Str.is_alpha a && Str.forallb Url.scheme_char (String a pre)); [|done].
  by apply mem_drop.
Qed.

Lemma path_no_line_feed url : no_line_feed (Url.path url).
Proof.
  unfold no_line_feed, Url.path.
  set (u1 := Str.remove "010" _).
  assert (Str.mem "010" u1 = false) as H1 by apply mem_remove_same.
  pose proof (mem_split_scheme _ _ H1) as H2.
  destruct (Url.split_scheme u1) as [scheme u2]. cbn [snd] in H2.
  set (u3 := if Str.startswith "//" u2 then _ else _).
  assert (Str.mem "010" u3 = false) as H3.
  { unfold u3. destruct (Str.startswith "//" u2); [|done].
    by apply mem_after_netloc, mem_drop. }
  assert (Str.mem "010" (Str.split_head "?" (Str.split_head "#" u3)) = false) as H4
    by (by do 2 apply mem_split_head).
  destruct (bool_decide _ && Str.mem ";" _); [|done].
  unfold Url.splitparams. destruct (Str.mem "/" _).
  - rewrite !mem_append. rewrite mem_rsplit_head by done.
    rewrite mem_split_head by (by apply mem_rsplit_last). done.
  - by apply mem_split_head.
Qed.

Lemma filename_no_line_feed url : no_line_feed (filename_of url).
Proof. apply mem_rsplit_last, path_no_line_feed. Qed.

Lemma name_no_line_feed url : no_line_feed (name_of url).
Proof. apply mem_rsplit_head, filename_no_line_feed. Qed.

(** The name is the file name without its last dot and what follows. *)
Lemma rsplit_head_prefix sep s : exists r, s = Str.rsplit_head sep s +:+ r.
Proof.
  induction s as [|a s [r IH]]; [by exists EmptyString|]. cbn [Str.rsplit_head].
  destruct (Str.mem sep s).
  - exists r. by rewrite append_cons, <- IH.
  - destruct (Ascii.eqb a sep); [by exists (String a s)|].
    exists EmptyString. by rewrite append_nil_r.
Qed.

(** ** The structured pattern and the date heuristic *)

Lemma DATE_IN_NAME_RE_search_append n r m :
  DATE_IN_NAME_RE_search n = Some m -> DATE_IN_NAME_RE_search (n +:+ r) = Some m.
Proof.
  induction n as [|a n IH]; intros H; [done|].
  pose proof (DATE_IN_NAME_RE_search_length _ _ H) as Hlen.
  rewrite DATE_IN_NAME_RE_search_unfold in H.
  rewrite append_cons, DATE_IN_NAME_RE_search_unfold, <- (append_cons a n r).
  rewrite match_date_at_append, take_10_append by done.
  destruct (match_date_at (String a n)); [done|]. by apply IH.
Qed.

Lemma EP_RE_search_unfold s :
  EP_RE_search s =
  match match_EP_RE_at s with
  | Some g => Some g
  | None => match s with
            | EmptyString => None
            | String _ s' => EP_RE_search s'
            end
  end.
Proof. by destruct s. Qed.

Lemma match_lazy_ep_unfold s :
  match_lazy_ep s =
  match match_ep_at s with
  | Some ds => Some ds
  | None => match s with
            | EmptyString => None
            | String a s' => if Ascii.eqb a "010" then None else match_lazy_ep s'
            end
  end.
Proof. by destruct s. Qed.

(** The lazy [.*?] reaches every later position of a text without line
    feed. *)
Lemma match_lazy_ep_earlier s : forall k e,
  no_line_feed s -> match_lazy_ep (Str.drop k s) = Some e ->
  exists e', match_lazy_ep s = Some e'.
Proof.
  induction s as [|a s IH]; intros k e Hnl H.
  - destruct k; eauto.
  - destruct k as [|k]; [eauto|]. rewrite drop_S in H.
    unfold no_line_feed in Hnl. cbn [Str.mem] in Hnl.
    apply orb_false_iff in Hnl as [Ha Hs].
    destruct (IH k e Hs H) as [e' He'].
    rewrite match_lazy_ep_unfold. destruct (match_ep_at (String a s)); [eauto|].
    rewrite Ha. eauto.
Qed.

Lemma match_EP_RE_at_Some s m e :
  match_EP_RE_at s = Some (m, e) ->
  match_date_at s = true /\ m = Str.take 10 s
  /\ match_lazy_ep (Str.drop 10 s) = Some e.
Proof.
  unfold match_EP_RE_at. destruct (match_date_at s); [|done].
  destruct (match_lazy_ep (Str.drop 10 s)); [|done]. by intros [= <- <-].
Qed.

Lemma EP_RE_search_position s m e :
  EP_RE_search s = Some (m, e) ->
  exists k, match_date_at (Str.drop k s) = true /\ m = Str.take 10 (Str.drop k s)
            /\ match_lazy_ep (Str.drop (k + 10) s) = Some e.
Proof.
  induction s as [|a s IH]; rewrite EP_RE_search_unfold.
  - destruct (match_EP_RE_at EmptyString) as [[m' e']|] eqn:E; [|done].
    by apply match_EP_RE_at_Some in E as [? _].
  - destruct (match_EP_RE_at (String a s)) as [[m' e']|] eqn:E.
    + intros H. assert (m' = m /\ e' = e) as [-> ->] by (split; congruence).
      apply match_EP_RE_at_Some in E as (H1 & H2 & H3). by exists 0%nat.
    + intros H. destruct (IH H) as (k & H1 & H2 & H3). by exists (S k).
Qed.

(** On a text without line feed, the date of the structured match is the
    leftmost text of the shape of a date. *)
Lemma EP_RE_search_date s m e :
  no_line_feed s -> EP_RE_search s = Some (m, e) ->
  DATE_IN_NAME_RE_search s = Some m.
Proof.
  induction s as [|a s IH]; intros Hnl; rewrite EP_RE_search_unfold.
  - destruct (match_EP_RE_at EmptyString) as [[m' e']|] eqn:E; [|done].
    by apply match_EP_RE_at_Some in E as [? _].
  - rewrite DATE_IN_NAME_RE_search_unfold.
    destruct (match_EP_RE_at (String a s)) as [[m' e']|] eqn:E.
    + intros H. assert (m' = m) as -> by congruence.
      apply match_EP_RE_at_Some in E as (-> & -> & _). done.
    + intros H. destruct (match_date_at (String a s)) eqn:Ed.
      * exfalso. destruct (EP_RE_search_position _ _ _ H) as (k & _ & _ & Hk).
        assert (no_line_feed (Str.drop 10 (String a s))) as Hnl'
          by (by apply mem_drop).
        destruct (match_lazy_ep_earlier (Str.drop 10 (String a s)) (S k) e Hnl')
          as [e' He'].
        { rewrite drop_drop. by replace (10 + S k)%nat with (S (k + 10)) by lia. }
        unfold match_EP_RE_at in E. rewrite Ed, He' in E. done.
      * apply IH; [|done]. unfold no_line_feed in *. cbn [Str.mem] in Hnl.
        by apply orb_false_iff in Hnl as [_ ?].
Qed.






(** ** What the extractor keeps *)

Lemma forallb_span p s : Str.forallb p (Str.span p s) = true.
Proof.
  induction s as [|a s IH]; [done|]. cbn [Str.span].
  destruct (p a) eqn:E; [|done]. cbn [Str.forallb]. by rewrite E.
Qed.

Lemma match_MP3_RE_at_Some s g n :
  match_MP3_RE_at s = Some (g, n) -> mp3_link_text g.
Proof.
  unfold match_MP3_RE_at. destruct (Str.startswith_nocase "href=" s); [|done].
  destruct (Str.drop 5 s) as [|q rest]; [done|].
  destruct (Ascii.eqb q "034" || Ascii.eqb q "'"); [|done].
  set (run := Str.span _ rest).
  destruct (Str.drop (String.length run) rest); [done|].
  destruct (5 <=? String.length run)%nat eqn:El; [|done].
  destruct (Str.startswith_nocase ".mp3" _) eqn:Em; [|done].
  intros [= <- _]. split; [by apply Nat.leb_le|]. split; [done|].
  apply forallb_span.
Qed.

Lemma MP3_RE_finditer_from_elem s : forall skip g,
  g ∈ MP3_RE_finditer_from skip s -> mp3_link_text g.
Proof.
  induction s as [|a s IH]; intros skip g; cbn [MP3_RE_finditer_from].
  - by intros ?%elem_of_nil.
  - destruct skip as [|k]; [|apply IH].
    destruct (match_MP3_RE_at (String a s)) as [[g' n]|] eqn:E; [|apply IH].
    intros [->|H]%elem_of_cons; [by eapply match_MP3_RE_at_Some|by eapply IH].
Qed.

Lemma mem_drop_true c n s : Str.mem c (Str.drop n s) = true -> Str.mem c s = true.
Proof.
  intros H. destruct (Str.mem c s) eqn:E; [done|].
  by rewrite (mem_drop _ n _ E) in H.
Qed.

(** Without a quote there is no match. *)
Lemma match_MP3_RE_at_no_quote s :
  Str.mem "034" s = false -> Str.mem "'" s = false -> match_MP3_RE_at s = None.
Proof.
  intros H1 H2. unfold match_MP3_RE_at.
  destruct (Str.startswith_nocase "href=" s); [|done].
  destruct (Str.drop 5 s) as [|q rest] eqn:E; [done|].
  destruct (Ascii.eqb q "034") eqn:E1.
  - assert (Str.mem "034" (Str.drop 5 s) = true) as H
      by (rewrite E; cbn [Str.mem]; by rewrite E1).
    apply mem_drop_true in H. congruence.
  - destruct (Ascii.eqb q "'") eqn:E2; [|done].
    assert (Str.mem "'" (Str.drop 5 s) = true) as H
      by (rewrite E; cbn [Str.mem]; by rewrite E2).
    apply mem_drop_true in H. congruence.
Qed.

Lemma MP3_RE_finditer_from_no_quote s : forall skip,
  Str.mem "034" s = false -> Str.mem "'" s = false ->
  MP3_RE_finditer_from skip s = [].
Proof.
  induction s as [|a s IH]; intros skip H1 H2; [done|].
  cbn [MP3_RE_finditer_from].
  pose proof H1 as [_ H1']%orb_false_iff. pose proof H2 as [_ H2']%orb_false_iff.
  destruct skip; [|by apply IH].
  rewrite match_MP3_RE_at_no_quote by done. by apply IH.
Qed.

Section ExtractorMore.

Variable unescape : string -> string.
Variable urljoin : string -> string -> string.

#[local] Set Warnings "-clear-no-such-hyp".

Lemma extract_mp3_urls_candidates page_html base_url u :
  u ∈ extract_mp3_urls unescape urljoin page_html base_url
  <-> u ∈ candidates unescape urljoin page_html base_url.
Proof.
  unfold extract_mp3_urls, candidates, MP3_RE_finditer.
  rewrite (extract_fold unescape urljoin base_url _ [] ∅) by set_solver.
  destruct (dedup_acc_spec unescape urljoin
              (List.filter (fun u => Str.startswith "http://" u || Str.startswith "https://" u)
                 (List.map (fun g => urljoin base_url (unescape g))
                    (MP3_RE_finditer_from 0 page_html))) [] (NoDup_nil_2))
    as (_ & H & _).
  rewrite H. set_solver.
Qed.

(** Every URL of the output has the scheme http or https, and is the
    resolution of the unescaped text of a link of the page: a text without
    quote, of five characters at least, that ends in [.mp3] in whatever
    case. *)
Theorem extract_mp3_urls_http_mp3 page_html base_url u :
  u ∈ extract_mp3_urls unescape urljoin page_html base_url ->
  is_http u = true
  /\ exists g, g ∈ MP3_RE_finditer page_html /\ mp3_link_text g
               /\ u = absolutize urljoin (unescape g) base_url.
Proof.
  rewrite extract_mp3_urls_candidates. unfold candidates.
  rewrite list_elem_of_In, filter_In, in_map_iff.
  intros [(g & <- & Hg) Hh]. split; [done|]. exists g.
  rewrite <- list_elem_of_In in Hg.
  split; [done|]. split; [|done]. by eapply MP3_RE_finditer_from_elem.
Qed.

(** A page without any quote has no link: the extractor returns the empty
    list, and the run ends with status 2 and nothing on the standard
    output. *)
Theorem no_quote_no_links now (a : args) page_html :
  Str.mem "034" page_html = false -> Str.mem "'" page_html = false ->
  extract_mp3_urls unescape urljoin page_html (page a) = []
  /\ run now unescape urljoin a page_html
     = mkoutcome 2 EmptyString
         ("ERROR: No .mp3 links found on " +:+ page a +:+ String "010" EmptyString).
Proof.
  intros H1 H2.
  assert (extract_mp3_urls unescape urljoin page_html (page a) = []) as He.
  { unfold extract_mp3_urls, MP3_RE_finditer.
    by rewrite MP3_RE_finditer_from_no_quote. }
  split; [done|]. by apply no_links_exit_status.
Qed.

End ExtractorMore.

Lemma extract_mp3_urls_http_mp3_witness :
  is_http url_random = true
  /\ exists g, g ∈ MP3_RE_finditer page_random /\ mp3_link_text g
               /\ url_random = absolutize (fun _ u => u) ((fun s => s) g) base_url.
Proof.
  apply (extract_mp3_urls_http_mp3 (fun s => s) (fun _ u => u) page_random base_url).
  vm_compute. apply list_elem_of_here.
Defined.

Lemma no_quote_no_links_witness :
  extract_mp3_urls (fun s => s) (fun _ u => u) "<html>no link</html>" base_url = []
  /\ run now0 (fun s => s) (fun _ u => u) (mkargs base_url "S" "T" "D" None None)
       "<html>no link</html>"
     = mkoutcome 2 EmptyString
         ("ERROR: No .mp3 links found on " +:+ base_url +:+ String "010" EmptyString).
Proof.
  apply (no_quote_no_links (fun s => s) (fun _ u => u) now0
           (mkargs base_url "S" "T" "D" None None) "<html>no link</html>");
    reflexivity.
Defined.

(** ** What the metadata inference returns *)

Lemma fromisoformat_valid m d :
  fromisoformat m = Ok d -> valid_date (year d) (month d) (day d) = true.
Proof.
  unfold fromisoformat.
  destruct (match_date_at m && (String.length m =? 10)%nat); [|done].
  destruct (valid_date _ _ _) eqn:E; [|done]. by intros [= <-].
Qed.

Lemma valid_date_bounds y m d :
  valid_date y m d = true ->
  1 <= y <= 9999 /\ 1 <= m <= 12 /\ 1 <= d <= days_in_month y m.
Proof. unfold valid_date. rewrite !andb_true_iff, !Z.leb_le. lia. Qed.





(** A date that the heuristic yields is midnight on a day of the calendar
    between the years 1 and 9999. *)
Theorem guess_pubdate_valid_midnight url t :
  guess_pubdate_from_url url = Ok (Some t) ->
  hour t = 0 /\ minute t = 0 /\ second t = 0
  /\ 1 <= year (dt_date t) <= 9999
  /\ 1 <= month (dt_date t) <= 12
  /\ 1 <= day (dt_date t) <= days_in_month (year (dt_date t)) (month (dt_date t)).
Proof.
  unfold guess_pubdate_from_url.
  destruct (DATE_IN_NAME_RE_search (filename_of url)) as [m|]; [|done].
  destruct (fromisoformat m) as [d|e] eqn:E; simpl; [|by destruct e].
  intros [= <-]. apply fromisoformat_valid, valid_date_bounds in E.
  cbn [midnight hour minute second dt_date]. repeat split; try reflexivity; lia.
Qed.

Lemma guess_pubdate_valid_midnight_witness :
  let t := midnight (mkdate 2024 1 5) in
  hour t = 0 /\ minute t = 0 /\ second t = 0
  /\ 1 <= year (dt_date t) <= 9999
  /\ 1 <= month (dt_date t) <= 12
  /\ 1 <= day (dt_date t) <= days_in_month (year (dt_date t)) (month (dt_date t)).
Proof.
  apply (guess_pubdate_valid_midnight url_ep12). vm_compute. reflexivity.
Defined.


(** ** File names without hyphen *)

Lemma match_date_at_no_hyphen s : Str.mem "-" s = false -> match_date_at s = false.
Proof.
  do 10 (destruct s as [|? s]; [done|]). cbn [Str.mem match_date_at].
  destruct (Ascii.eqb a3 "-").
  - by rewrite !orb_true_r.
  - by rewrite !andb_false_r.
Qed.

Lemma DATE_IN_NAME_RE_search_no_hyphen s :
  Str.mem "-" s = false -> DATE_IN_NAME_RE_search s = None.
Proof.
  induction s as [|a s IH]; intros H; rewrite DATE_IN_NAME_RE_search_unfold;
    rewrite (match_date_at_no_hyphen _ H); [done|].
  apply IH. cbn [Str.mem] in H. by apply orb_false_iff in H as [_ ?].
Qed.

Lemma EP_RE_search_no_hyphen s : Str.mem "-" s = false -> EP_RE_search s = None.
Proof.
  induction s as [|a s IH]; intros H; rewrite EP_RE_search_unfold;
    unfold match_EP_RE_at; rewrite (match_date_at_no_hyphen _ H); [done|].
  apply IH. cbn [Str.mem] in H. by apply orb_false_iff in H as [_ ?].
Qed.

(** A URL whose file name holds no hyphen has no date and no structured
    match: it sorts under the date of the epoch, and its item, when the
    episode number is bound, has the cleaned name as title, the URL in its
    description and no [pubDate]. *)
Theorem no_hyphen_fallback url n :
  Str.mem "-" (filename_of url) = false ->
  guess_pubdate_from_url url = Ok None
  /\ parse_episode_info url = Ok None
  /\ sort_key url = (epoch, url)
  /\ exists item,
       render_item (Some n) (sort_key url) = Ok (item, Some n)
       /\ child_text "title" item = Some (human_title_from_url url)
       /\ child_text "description" item = Some ("Audio: " +:+ url)
       /\ findall "pubDate" item = [].
Proof.
  intros H.
  assert (guess_pubdate_from_url url = Ok None) as Hg.
  { unfold guess_pubdate_from_url. by rewrite DATE_IN_NAME_RE_search_no_hyphen. }
  assert (parse_episode_info url = Ok None) as Hp.
  { unfold parse_episode_info, name_of.
    by rewrite EP_RE_search_no_hyphen by (by apply mem_rsplit_head). }
  assert (sort_key url = (epoch, url)) as Hk by (by rewrite (sort_key_guess _ _ Hg)).
  repeat split; try done. rewrite Hk, (render_item_fallback _ _ _ Hp).
  eexists. split; [done|].
  by rewrite child_text_title, child_text_description, findall_pubDate.
Qed.

Lemma no_hyphen_fallback_witness :
  guess_pubdate_from_url url_random = Ok None
  /\ parse_episode_info url_random = Ok None
  /\ sort_key url_random = (epoch, url_random)
  /\ exists item,
       render_item (Some 7) (sort_key url_random) = Ok (item, Some 7)
       /\ child_text "title" item = Some (human_title_from_url url_random)
       /\ child_text "description" item = Some ("Audio: " +:+ url_random)
       /\ findall "pubDate" item = [].
Proof. apply (no_hyphen_fallback url_random 7). vm_compute. reflexivity. Defined.

(** ** The fallback title *)

Lemma mem_rsplit_last_sep sep s : Str.mem sep (Str.rsplit_last sep s) = false.
Proof.
  induction s as [|a s IH]; [done|]. cbn [Str.rsplit_last].
  destruct (Str.mem sep s) eqn:E; [done|].
  destruct (Ascii.eqb a sep) eqn:Ea; [done|]. cbn [Str.mem]. by rewrite Ea, E.
Qed.

Lemma mem_replace_same a b s : a <> b -> Str.mem a (Str.replace a b s) = false.
Proof.
  intros Hab. unfold Str.replace. induction s as [|c s IH]; [done|].
  cbn [Str.map Str.mem]. rewrite IH, orb_false_r.
  destruct (Ascii.eqb c a) eqn:E; [|done].
  apply Ascii.eqb_neq. congruence.
Qed.

Lemma mem_replace_other c a b s :
  c <> b -> Str.mem c s = false -> Str.mem c (Str.replace a b s) = false.
Proof.
  intros Hcb. unfold Str.replace. induction s as [|x s IH]; [done|].
  cbn [Str.map Str.mem]. intros [Hx Hs]%orb_false_iff. rewrite (IH Hs), orb_false_r.
  destruct (Ascii.eqb x a); [|done]. apply Ascii.eqb_neq. congruence.
Qed.

Lemma collapse_spaces_cons a s :
  collapse_spaces (String a s) =
  if Str.is_space a then
    match s with
    | String b _ => if Str.is_space b then collapse_spaces s
                    else String " " (collapse_spaces s)
    | EmptyString => String " " EmptyString
    end
  else String a (collapse_spaces s).
Proof. done. Qed.

Lemma mem_collapse_spaces c s :
  c <> " "%char -> Str.mem c s = false -> Str.mem c (collapse_spaces s) = false.
Proof.
  intros Hc. assert (Ascii.eqb " " c = false) as Hsp
    by (apply Ascii.eqb_neq; congruence).
  induction s as [|a s IH]; [done|]. rewrite collapse_spaces_cons.
  cbn [Str.mem]. intros [Ha Hs]%orb_false_iff. specialize (IH Hs).
  destruct (Str.is_space a).
  - destruct s as [|b s']; [cbn [Str.mem]; by rewrite Hsp|].
    destruct (Str.is_space b); [done|]. cbn [Str.mem]. by rewrite Hsp, IH.
  - cbn [Str.mem]. by rewrite Ha, IH.
Qed.

Lemma mem_lstrip c p s : Str.mem c s = false -> Str.mem c (Str.lstrip p s) = false.
Proof.
  induction s as [|a s IH]; [done|]. cbn [Str.lstrip]. intros H.
  destruct (p a); [|done]. cbn [Str.mem] in H. apply orb_false_iff in H as [_ H]. auto.
Qed.

Lemma mem_rstrip c p s : Str.mem c s = false -> Str.mem c (Str.rstrip p s) = false.
Proof.
  induction s as [|a s IH]; [done|]. cbn [Str.rstrip Str.mem].
  intros [Ha Hs]%orb_false_iff. destruct (p a && Str.forallb p s); [done|].
  cbn [Str.mem]. by rewrite Ha, IH.
Qed.

Lemma collapse_spaces_head b s :
  Str.is_space b = false ->
  collapse_spaces (String b s) = String b (collapse_spaces s).
Proof. intros H. by rewrite collapse_spaces_cons, H. Qed.

Lemma spaced_collapse_spaces s : spaced false (collapse_spaces s) = true.
Proof.
  induction s as [|a s IH]; [done|]. rewrite collapse_spaces_cons.
  destruct (Str.is_space a) eqn:Ea.
  - destruct s as [|b s']; [done|].
    destruct (Str.is_space b) eqn:Eb; [done|].
    rewrite (collapse_spaces_head _ _ Eb) in *.
    cbn [spaced] in *. by rewrite Eb in *.
  - cbn [spaced]. by rewrite Ea, IH.
Qed.

Lemma spaced_lstrip strict p s :
  spaced strict s = true -> spaced strict (Str.lstrip p s) = true.
Proof.
  induction s as [|a s IH]; [done|]. cbn [Str.lstrip]. intros H.
  destruct (p a); [|done]. cbn [spaced] in H. apply andb_true_iff in H as [_ H]. auto.
Qed.

Lemma no_leading_space_lstrip s : no_leading_space (Str.lstrip Str.is_space s) = true.
Proof.
  induction s as [|a s IH]; [done|]. cbn [Str.lstrip].
  destruct (Str.is_space a) eqn:E; [done|]. cbn [no_leading_space]. by rewrite E.
Qed.

Lemma no_leading_space_rstrip s :
  no_leading_space s = true -> no_leading_space (Str.rstrip Str.is_space s) = true.
Proof.
  destruct s as [|a s]; [done|]. cbn [no_leading_space Str.rstrip].
  intros Ha%negb_true_iff. rewrite Ha. cbn [andb no_leading_space]. by rewrite Ha.
Qed.

Lemma spaced_rstrip s :
  spaced false s = true -> spaced true (Str.rstrip Str.is_space s) = true.
Proof.
  induction s as [|a s IH]; [done|]. cbn [spaced Str.rstrip].
  intros [Ha Hs]%andb_true_iff. specialize (IH Hs).
  destruct (Str.is_space a) eqn:Ea; cbn [andb].
  - destruct (Str.forallb Str.is_space s) eqn:Ef; [done|].
    cbn [spaced]. rewrite Ea, IH, andb_true_r.
    apply andb_true_iff in Ha as [Hsp Hnext]. rewrite Hsp. cbn [andb].
    destruct s as [|b s']; [done|]. apply negb_true_iff in Hnext.
    cbn [Str.rstrip]. rewrite Hnext. cbn [andb]. by rewrite Hnext.
  - cbn [spaced]. by rewrite Ea, IH.
Qed.

(** The fallback title holds no underscore and no slash; it neither starts
    nor ends with a white space, and every white space in it is one space
    between two characters that are no white space. *)
Theorem human_title_from_url_clean url :
  let t := human_title_from_url url in
  Str.mem "_" t = false /\ Str.mem "/" t = false
  /\ no_leading_space t = true /\ spaced true t = true.
Proof.
  unfold human_title_from_url, Str.strip. cbv zeta.
  split; [|split; [|split]].
  - apply mem_rstrip, mem_lstrip, mem_collapse_spaces; [done|].
    by apply mem_replace_same.
  - apply mem_rstrip, mem_lstrip, mem_collapse_spaces; [done|].
    apply mem_replace_other; [done|].
    apply mem_rsplit_head, mem_rsplit_last_sep.
  - apply no_leading_space_rstrip, no_leading_space_lstrip.
  - apply spaced_rstrip, spaced_lstrip, spaced_collapse_spaces.
Qed.

(** ** When the renderer returns *)

Lemma render_items_cons ep it rest :
  render_items ep (it :: rest) =
  match render_item ep it with
  | Ok (item, ep') =>
      match render_items ep' rest with
      | Ok more => Ok (item :: more)
      | Raise e => Raise e
      end
  | Raise e => Raise e
  end.
Proof.
  cbn [render_items]. destruct (render_item ep it) as [[item ep']|e]; [|done].
  cbn [mbind result_bind]. by destruct (render_items ep' rest).
Qed.





Lemma length_sort_desc l : length (sort_desc l) = length l.
Proof. apply Permutation_length, sort_desc_perm. Qed.

(** A limit that is not smaller than the number of URLs changes nothing. *)
Theorem limit_beyond_length now urls ft fd su img (n : Z) :
  Z.of_nat (length urls) <= n ->
  select_items urls (Some n) = select_items urls None
  /\ build_rss now urls ft fd su img (Some n) = build_rss now urls ft fd su img None.
Proof.
  intros Hn.
  assert (select_items urls (Some n) = select_items urls None) as Hs.
  { rewrite !select_items_eq, slice_to_nonneg by lia. f_equal.
    apply take_ge. rewrite length_sort_desc, length_fmap. lia. }
  split; [done|]. unfold build_rss, build_rss_tree. by rewrite Hs.
Qed.

Lemma limit_beyond_length_witness :
  select_items [url_ep12; url_ep13] (Some 5) = select_items [url_ep12; url_ep13] None
  /\ build_rss now0 [url_ep12; url_ep13] "T" "D" "S" None (Some 5)
     = build_rss now0 [url_ep12; url_ep13] "T" "D" "S" None None.
Proof.
  apply (limit_beyond_length now0 [url_ep12; url_ep13] "T" "D" "S" None 5).
  simpl. lia.
Defined.

(** ** The outcome of a run *)


(** ** The episode number that a fallback item carries *)

Lemma child_text_episode ttl dsc pub_dt url n :
  child_text "itunes:episode" (item_of ttl dsc pub_dt url n) = Some (Str.of_Z n).
Proof. unfold child_text. by rewrite findall_episode. Qed.

Lemma render_items_fallback_episode items : forall ep rendered i a b it,
  render_items ep items = Ok rendered ->
  rendered !! i = Some a -> rendered !! S i = Some b ->
  items !! S i = Some it -> parse_episode_info it.2 = Ok None ->
  child_text "itunes:episode" b = child_text "itunes:episode" a.
Proof.
  induction items as [|it0 items IH]; intros ep rendered i a b it; [done|].
  rewrite render_items_cons.
  destruct (render_item ep it0) as [[item0 ep']|e] eqn:E0; [|done].
  destruct (render_items ep' items) as [more|e] eqn:Em; [|done].
  intros [= <-] Ha Hb Hit Hp. destruct i as [|i].
  - cbn in Ha, Hb, Hit. injection Ha as ->.
    destruct items as [|it1 rest]; [done|]. cbn in Hit. injection Hit as ->.
    rewrite render_items_cons in Em.
    destruct it0 as [p0 u0], it as [p1 u1]. cbn [snd] in Hp.
    apply render_item_shape in E0 as (ttl & dsc & n & -> & ->).
    rewrite (render_item_fallback _ _ _ Hp) in Em.
    destruct (render_items (Some n) rest) as [more'|e]; [|done].
    injection Em as <-. cbn in Hb. injection Hb as <-.
    by rewrite !child_text_episode.
  - by apply (IH ep' more i a b it).
Qed.

(** In a feed that [build_rss] returns, an item whose name misses the
    structured pattern carries the episode number of the item before it. *)
Theorem fallback_item_repeats_episode now urls ft fd su img limit rss i a b u :
  build_rss_tree now urls ft fd su img limit = Ok rss ->
  feed_items rss !! i = Some a -> feed_items rss !! S i = Some b ->
  child_text "guid" b = Some u -> parse_episode_info u = Ok None ->
  child_text "itunes:episode" b = child_text "itunes:episode" a.
Proof.
  intros Hb Ha Hb' Hg Hp.
  apply feed_items_build_rss_tree in Hb as (items & Hs & Hr).
  pose proof (render_items_shape _ _ _ Hr) as Hf.
  destruct (Forall2_lookup_r _ _ _ _ _ Hf Hb') as (it & Hit & ttl & dsc & n & ->).
  rewrite child_text_guid in Hg. injection Hg as <-.
  by eapply render_items_fallback_episode.
Qed.

Lemma fallback_item_repeats_episode_witness :
  child_text "itunes:episode" item_second = child_text "itunes:episode" item_first.
Proof.
  apply (fallback_item_repeats_episode now0 [url_random; url_ep12] "T" "D" "S" None None
           rss_ep12_random 0 item_first item_second url_random);
    vm_compute; reflexivity.
Defined.

(** ** The channel block and the URLs of the feed *)

Lemma filter_rendered_other tg items rendered :
  String.eqb "item" tg = false ->
  Forall2 (fun it item => exists ttl dsc n, item = item_of ttl dsc it.1 it.2 n)
          items rendered ->
  List.filter (fun c => String.eqb (tag c) tg) rendered = [].
Proof.
  intros Htg. induction 1 as [|it item items rendered (ttl & dsc & n & ->) _ IH]; [done|].
  cbn [List.filter item_of tag]. by rewrite Htg.
Qed.

(** The channel of a feed that [build_rss] returns carries the title, the
    link and the description that were given, the language [en-us], and an
    [itunes:image] element exactly when the image URL is a string that is not
    empty. *)
Theorem channel_block now urls ft fd su img limit rss :
  build_rss_tree now urls ft fd su img limit = Ok rss ->
  exists ch,
    findall "channel" rss = [ch]
    /\ child_text "title" ch = Some ft
    /\ child_text "link" ch = Some su
    /\ child_text "description" ch = Some fd
    /\ child_text "language" ch = Some "en-us"
    /\ child_text "lastBuildDate" ch = Some (format_datetime now)
    /\ findall "itunes:image" ch =
       match img with
       | Some (String c u) => [mkElement "itunes:image" [("href", String c u)] None []]
       | _ => []
       end.
Proof.
  unfold build_rss_tree.
  destruct (select_items urls limit) as [items|e]; [|done]. cbn [mbind result_bind].
  destruct (render_items None items) as [rendered|e] eqn:Er; [|done].
  cbn [mbind result_bind]. intros H.
  assert (rss = mkElement "rss"
            [("version", "2.0");
             ("xmlns:itunes", "http://www.itunes.com/dtds/podcast-1.0.dtd")] None
            [mkElement "channel" [] None
               (channel_head now ft fd su img ++ rendered)]) as -> by congruence.
  pose proof (render_items_shape _ _ _ Er) as Hf.
  eexists. split; [reflexivity|].
  unfold child_text, findall. cbn [children]. rewrite !List.filter_app.
  assert (forall tg, String.eqb "item" tg = false ->
            List.filter (fun c => String.eqb (tag c) tg) rendered = []) as Hr
    by (intros tg Htg; by eapply filter_rendered_other).
  rewrite !Hr by reflexivity. rewrite !app_nil_r.
  unfold channel_head. rewrite !List.filter_app.
  by destruct img as [[|c u]|].
Qed.

Lemma channel_block_witness :
  exists ch,
    findall "channel" rss_ep12 = [ch]
    /\ child_text "title" ch = Some "T"
    /\ child_text "link" ch = Some "S"
    /\ child_text "description" ch = Some "D"
    /\ child_text "language" ch = Some "en-us"
    /\ child_text "lastBuildDate" ch = Some (format_datetime now0)
    /\ findall "itunes:image" ch =
       match @None string with
       | Some (String c u) => [mkElement "itunes:image" [("href", String c u)] None []]
       | _ => []
       end.
Proof.
  apply (channel_block now0 [url_ep12] "T" "D" "S" None None rss_ep12).
  vm_compute. reflexivity.
Defined.

Lemma feed_guids items rendered :
  Forall2 (fun it item => exists ttl dsc n, item = item_of ttl dsc it.1 it.2 n)
          items rendered ->
  child_text "guid" <$> rendered = (fun it => Some it.2) <$> items.
Proof.
  induction 1 as [|it item items rendered (ttl & dsc & n & ->) _ IH]; [done|].
  cbn [fmap list_fmap]. rewrite child_text_guid. f_equal. apply IH.
Qed.

(** Without a limit, the guids of a feed that [build_rss] returns are the
    input URLs, each as often as it is in the input. *)
Theorem feed_guids_are_urls now urls ft fd su img rss :
  build_rss_tree now urls ft fd su img None = Ok rss ->
  child_text "guid" <$> feed_items rss ≡ₚ Some <$> urls.
Proof.
  intros (items & Hs & Hf)%feed_items_spec. rewrite (feed_guids _ _ Hf).
  rewrite select_items_eq in Hs. injection Hs as <-.
  rewrite sort_desc_perm, <- list_fmap_compose. done.
Qed.

Lemma feed_guids_are_urls_witness :
  child_text "guid" <$> feed_items rss_ep12 ≡ₚ Some <$> [url_ep12].
Proof.
  apply (feed_guids_are_urls now0 [url_ep12] "T" "D" "S" None rss_ep12).
  vm_compute. reflexivity.
Defined.

(** ** The two dates of a URL *)

(** When the name has a structured match, the text that the match captured
    as the date is the text that the date heuristic reads in the file name:
    the two code paths never see two different dates. *)
Theorem structured_date_is_heuristic_date url m ds :
  EP_RE_search (name_of url) = Some (m, ds) ->
  DATE_IN_NAME_RE_search (filename_of url) = Some m
  /\ guess_pubdate_from_url url
     = match fromisoformat m with
       | Ok d => Ok (Some (midnight d))
       | Raise _ => Ok None
       end.
Proof.
  intros Hs. apply EP_RE_search_date in Hs; [|apply name_no_line_feed].
  destruct (rsplit_head_prefix "." (filename_of url)) as [r Hr].
  apply (DATE_IN_NAME_RE_search_append _ r) in Hs. fold (name_of url) in Hr.
  rewrite <- Hr in Hs. split; [done|]. unfold guess_pubdate_from_url. rewrite Hs.
  destruct (fromisoformat m) as [d|e] eqn:E; [done|].
  by rewrite (fromisoformat_raises _ _ E).
Qed.

Lemma structured_date_is_heuristic_date_witness :
  DATE_IN_NAME_RE_search (filename_of url_bad_date) = Some "2024-13-45"
  /\ guess_pubdate_from_url url_bad_date
     = match fromisoformat "2024-13-45" with
       | Ok d => Ok (Some (midnight d))
       | Raise _ => Ok None
       end.
Proof.
  apply (structured_date_is_heuristic_date url_bad_date "2024-13-45" "1").
  vm_compute. reflexivity.
Defined.

(** ** Links that are all different *)


Section ExtractorDistinct.

Variable unescape : string -> string.
Variable urljoin : string -> string -> string.

#[local] Set Warnings "-clear-no-such-hyp".


End ExtractorDistinct.


(** ** The elements of an item *)

(** Every item of a feed that [build_rss] returns has one title, one link,
    one guid, one description, one enclosure of type [audio/mpeg] without
    length, one episode number, the episode type [full], and one [pubDate] at
    most. *)
Theorem feed_item_elements now urls ft fd su img limit rss i item :
  build_rss_tree now urls ft fd su img limit = Ok rss ->
  feed_items rss !! i = Some item ->
  tag item = "item"
  /\ length (findall "title" item) = 1%nat
  /\ length (findall "link" item) = 1%nat
  /\ length (findall "guid" item) = 1%nat
  /\ length (findall "description" item) = 1%nat
  /\ (length (findall "pubDate" item) <= 1)%nat
  /\ (exists e, findall "enclosure" item = [e]
                /\ get "type" (attrib e) = Some "audio/mpeg"
                /\ get "length" (attrib e) = None)
  /\ length (findall "itunes:episode" item) = 1%nat
  /\ child_text "itunes:episodeType" item = Some "full".
Proof.
  intros Hb Hi.
  destruct (feed_item_lookup _ _ _ _ _ _ _ _ _ _ Hb Hi)
    as (items & it & ttl & dsc & n & _ & _ & _ & _ & ->).
  split; [done|]. unfold child_text. rewrite !findall_item_of. unfold pubDate_of.
  destruct (bool_decide (year (dt_date it.1) ≠ 1970)); cbn;
    repeat split; try lia; by eexists.
Qed.

Lemma feed_item_elements_witness :
  tag item_ep12 = "item"
  /\ length (findall "title" item_ep12) = 1%nat
  /\ length (findall "link" item_ep12) = 1%nat
  /\ length (findall "guid" item_ep12) = 1%nat
  /\ length (findall "description" item_ep12) = 1%nat
  /\ (length (findall "pubDate" item_ep12) <= 1)%nat
  /\ (exists e, findall "enclosure" item_ep12 = [e]
                /\ get "type" (attrib e) = Some "audio/mpeg"
                /\ get "length" (attrib e) = None)
  /\ length (findall "itunes:episode" item_ep12) = 1%nat
  /\ child_text "itunes:episodeType" item_ep12 = Some "full".
Proof.
  apply (feed_item_elements now0 [url_ep12] "T" "D" "S" None None rss_ep12 0);
    vm_compute; reflexivity.
Defined.
